(** * Inbound message decryption and dispatch (message.go)

    A shallow embedding of [message.go] of the whatsmeow client: the
    padding codec, the message source resolver, the pairwise and group
    decryptors, the decryption dispatcher and the unwrapper of decrypted
    messages, together with the properties the specification states
    about them. *)

From Stdlib Require Import ZArith NArith Lia.
From Stdlib.Strings Require Import Byte.
From stdpp Require Import base option list strings gmap.

Set Default Proof Using "Type".

(** ** The Go runtime, as far as message.go relies on it *)

Module Go.

(** Values of Go's [error] interface.  [Sentinel] is a package level
    error value such as [signalerror.ErrUntrustedIdentity]; [Errorf] is
    [fmt.Errorf] without a [%w] verb and [Wrapf] is [fmt.Errorf] whose
    format ends in [%w], wrapping its operand. *)
Inductive error : Type :=
| Sentinel (name : string)
| Errorf (format : string)
| Wrapf (format : string) (operand : error).

(** [errors.Is(err, target)] for a sentinel target: follow the chain of
    wrapped errors.  A nil [err] is [None]. *)
Fixpoint chain_has (err : error) (target : string) : bool :=
  match err with
  | Sentinel name => String.eqb name target
  | Errorf _ => false
  | Wrapf _ operand => chain_has operand target
  end.

Definition errors_Is (err : option error) (target : string) : bool :=
  match err with
  | None => false
  | Some e => chain_has e target
  end.

(** A Go result pair [(T, error)] in which exactly one side is used. *)
Inductive result (A : Type) : Type :=
| Ok (a : A)
| Err (e : error).
Arguments Ok {A} a.
Arguments Err {A} e.

(** What a run-time panic carries. *)
Inductive panic_value : Type :=
| IndexOutOfRange (index : Z) (length : nat)
| SliceBoundsOutOfRange (high : Z) (capacity : nat)
| NilDereference
| PanicError (e : error).

(** A Go call either returns or panics. *)
Inductive exec (A : Type) : Type :=
| Return (a : A)
| Panic (p : panic_value).
Arguments Return {A} a.
Arguments Panic {A} p.

#[global] Instance exec_ret : MRet exec := fun A a => Return a.
#[global] Instance exec_bind : MBind exec := fun A B f m =>
  match m with
  | Return a => f a
  | Panic p => Panic p
  end.

Definition returns {A} (m : exec A) : Prop := ∃ a, m = Return a.
Definition panics {A} (m : exec A) : Prop := ∃ p, m = Panic p.

Abbreviation bytes := (list byte).

#[global] Instance byte_eq_dec : EqDecision byte := Byte.byte_eq_dec.

(** [len(s)] as a Go [int]. *)
Definition len {A} (s : list A) : Z := Z.of_nat (length s).

(** [s[i]]: panics unless [0 <= i < len(s)]. *)
Definition index {A} (s : list A) (i : Z) : exec A :=
  match (if (0 <=? i)%Z then s !! Z.to_nat i else None) with
  | Some x => Return x
  | None => Panic (IndexOutOfRange i (length s))
  end.

(** [s[:high]]: panics unless [0 <= high <= len(s)].  (Go allows
    [high] up to the capacity; message.go never slices past the
    length.) *)
Definition slice_to {A} (s : list A) (high : Z) : exec (list A) :=
  if ((0 <=? high) && (high <=? len s))%Z
  then Return (take (Z.to_nat high) s)
  else Panic (SliceBoundsOutOfRange high (length s)).

(** [bytes.Repeat(b, count)] for a non-negative count. *)
Definition bytes_Repeat (b : bytes) (count : nat) : bytes :=
  concat (replicate count b).

(** [bytes.HasSuffix(s, suffix)]. *)
Definition bytes_HasSuffix (s suffix : bytes) : bool :=
  (length suffix <=? length s) &&
  bool_decide (drop (length s - length suffix) s = suffix).

(** [int(b)] of a [byte]. *)
Definition int_of_byte (b : byte) : nat := Byte.to_nat b.

(** [a & b] on bytes. *)
Definition byte_and (a b : byte) : byte :=
  default x00 (Byte.of_N (N.land (Byte.to_N a) (Byte.to_N b))).

End Go.

Import Go.

(** ** Padding codec (message.go, lines 223-250) *)

Definition checkPadding : bool := true.

Definition isValidPadding (plaintext : bytes) : exec bool :=
  lastByte ← index plaintext (len plaintext - 1);
  let expectedPadding := bytes_Repeat [lastByte] (int_of_byte lastByte) in
  mret (bytes_HasSuffix plaintext expectedPadding).

Definition unpadMessage (plaintext : bytes) : exec (result bytes) :=
  invalid ← (if checkPadding
             then valid ← isValidPadding plaintext; mret (negb valid)
             else mret false);
  if (invalid : bool)
  then mret (Err (Errorf "plaintext doesn't have expected padding"))
  else
    n ← index plaintext (len plaintext - 1);
    stripped ← slice_to plaintext (len plaintext - Z.of_nat (int_of_byte n));
    mret (Ok stripped).

(** [padMessage] draws one byte from [crypto/rand]; the outcome of
    [rand.Read] is the argument [rand_Read]. *)
Definition padMessage (rand_Read : result byte) (plaintext : bytes) : exec bytes :=
  match rand_Read with
  | Err err => Panic (PanicError err)
  | Ok r =>
      let pad0 := byte_and r x0f in
      let pad0 := if decide (pad0 = x00) then x0f else pad0 in
      Return (plaintext ++ bytes_Repeat [pad0] (int_of_byte pad0))
  end.

(** ** Data model

    The types of the packages [types], [binary], [binary/proto] and
    [events] that message.go works on. *)

Set Warnings "-register-all".

(** Modelled from the spec: [types.JID] is declared outside message.go.
    An identity has a user component, a domain ([Server]) and a device
    qualification. *)
Record JID : Type := mkJID {
  User : string;
  Device : N;
  Server : string;
}.

#[global] Instance JID_eq_dec : EqDecision JID.
Proof. solve_decision. Defined.

(** The zero value of [types.JID]. *)
Definition JID_zero : JID := {| User := ""; Device := 0; Server := "" |}.

(** Modelled from the spec: the domains of group chats and of broadcast
    lists, constants of package [types]. *)
Definition GroupServer : string := "g.us".
Definition BroadcastServer : string := "broadcast".

Definition Time : Type := Z.

Record MessageSource : Type := mkMessageSource {
  Chat : JID;
  Sender : JID;
  IsFromMe : bool;
  IsGroup : bool;
  BroadcastListOwner : JID;
}.

(** The zero value a named result of type [types.MessageSource] starts with. *)
Definition MessageSource_zero : MessageSource :=
  {| Chat := JID_zero; Sender := JID_zero; IsFromMe := false;
     IsGroup := false; BroadcastListOwner := JID_zero |}.

(** Field assignments [source.F = v]. *)
Definition set_Chat (v : JID) (s : MessageSource) : MessageSource :=
  {| Chat := v; Sender := Sender s; IsFromMe := IsFromMe s;
     IsGroup := IsGroup s; BroadcastListOwner := BroadcastListOwner s |}.
Definition set_Sender (v : JID) (s : MessageSource) : MessageSource :=
  {| Chat := Chat s; Sender := v; IsFromMe := IsFromMe s;
     IsGroup := IsGroup s; BroadcastListOwner := BroadcastListOwner s |}.
Definition set_IsFromMe (v : bool) (s : MessageSource) : MessageSource :=
  {| Chat := Chat s; Sender := Sender s; IsFromMe := v;
     IsGroup := IsGroup s; BroadcastListOwner := BroadcastListOwner s |}.
Definition set_IsGroup (v : bool) (s : MessageSource) : MessageSource :=
  {| Chat := Chat s; Sender := Sender s; IsFromMe := IsFromMe s;
     IsGroup := v; BroadcastListOwner := BroadcastListOwner s |}.
Definition set_BroadcastListOwner (v : JID) (s : MessageSource) : MessageSource :=
  {| Chat := Chat s; Sender := Sender s; IsFromMe := IsFromMe s;
     IsGroup := IsGroup s; BroadcastListOwner := v |}.

Record types_DeviceSentMeta : Type := mkDeviceSentMeta {
  DestinationJID : string;
  Phash : string;
}.

(** [types.MessageInfo]; the embedded [MessageSource] is the field
    [Source], whose fields are reached through the coercion. *)
Record MessageInfo : Type := mkMessageInfo {
  Source :> MessageSource;
  ID : string;
  PushName : string;
  Timestamp : Time;
  Category : string;
  DeviceSentMeta : option types_DeviceSentMeta;
}.

Definition set_DeviceSentMeta (v : option types_DeviceSentMeta)
    (i : MessageInfo) : MessageInfo :=
  {| Source := Source i; ID := ID i; PushName := PushName i;
     Timestamp := Timestamp i; Category := Category i; DeviceSentMeta := v |}.

(** *** Nodes of the binary protocol *)

(** A value of the attribute map [map[string]interface{}]: message.go
    asserts the dynamic types [types.JID] and [string]. *)
Inductive attr_value : Type :=
| AttrJID (jid : JID)
| AttrString (s : string)
| AttrInt (i : Z).

(** The dynamically typed [Content] of a node. *)
Inductive content (node : Type) : Type :=
| ContentNil
| ContentBytes (b : bytes)
| ContentNodes (children : list node).
Arguments ContentNil {node}.
Arguments ContentBytes {node} b.
Arguments ContentNodes {node} children.

Inductive Node : Type := mkNode {
  Tag : string;
  Attrs : gmap string attr_value;
  Content : content Node;
}.

(** [node.Attrs[key].(types.JID)] and [node.Attrs[key].(string)]. *)
Definition attr_JID (node : Node) (key : string) : option JID :=
  match Attrs node !! key with
  | Some (AttrJID jid) => Some jid
  | _ => None
  end.

Definition attr_string (node : Node) (key : string) : option string :=
  match Attrs node !! key with
  | Some (AttrString s) => Some s
  | _ => None
  end.

(** [content, _ := child.Content.([]byte)]: nil unless the content is bytes. *)
Definition content_bytes (node : Node) : bytes :=
  match Content node with
  | ContentBytes b => b
  | _ => []
  end.

(** Modelled from the spec: [GetChildren] and [GetChildrenByTag] of
    package [binary] are not part of message.go; a node exposes "an
    ordered list of child units filterable by tag". *)
Definition GetChildren (node : Node) : list Node :=
  match Content node with
  | ContentNodes children => children
  | _ => []
  end.

Definition GetChildrenByTag (node : Node) (tag : string) : list Node :=
  filter (λ child, Tag child = tag) (GetChildren node).

(** *** Decoded messages *)

Module waProto.

Record DeviceSentMessage (message : Type) : Type := mkDeviceSentMessage {
  DestinationJid : option string;
  Phash : option string;
  DeviceSent_Message : option message;
}.
Arguments mkDeviceSentMessage {message}.
Arguments DestinationJid {message}.
Arguments Phash {message}.
Arguments DeviceSent_Message {message}.

Record FutureProofMessage (message : Type) : Type := mkFutureProofMessage {
  FutureProof_Message : option message;
}.
Arguments mkFutureProofMessage {message}.
Arguments FutureProof_Message {message}.

Record SenderKeyDistributionMessage : Type := mkSenderKeyDistributionMessage {
  GroupId : option string;
  AxolotlSenderKeyDistributionMessage : bytes;
}.

(** The control payload; message.go leaves it to the task
    [handleProtocolMessage]. *)
Record ProtocolMessage : Type := mkProtocolMessage {
  HistorySyncNotification : option bytes;
  AppStateSyncKeyShare : option bytes;
}.

(** [waProto.Message]: the fields message.go reads; [Conversation]
    is the plain text body. *)
Inductive Message : Type := mkMessage {
  Conversation : option string;
  SenderKeyDistribution : option SenderKeyDistributionMessage;
  Protocol : option ProtocolMessage;
  DeviceSent : option (DeviceSentMessage Message);
  Ephemeral : option (FutureProofMessage Message);
  ViewOnce : option (FutureProofMessage Message);
}.

(** The generated getters are nil-safe: on a nil receiver a getter
    of a message field is nil and a getter of a string field is "". *)
Definition GetMessage_DeviceSent (m : option (DeviceSentMessage Message))
    : option Message := m ≫= DeviceSent_Message.
Definition GetMessage_FutureProof (m : option (FutureProofMessage Message))
    : option Message := m ≫= FutureProof_Message.
Definition GetDestinationJid (m : option (DeviceSentMessage Message)) : string :=
  default "" (m ≫= DestinationJid).
Definition GetPhash (m : option (DeviceSentMessage Message)) : string :=
  default "" (m ≫= Phash).

Definition GetDeviceSentMessage (m : Message) := DeviceSent m.
Definition GetEphemeralMessage (m : Message) := Ephemeral m.
Definition GetViewOnceMessage (m : Message) := ViewOnce m.
Definition GetSenderKeyDistributionMessage (m : Message) := SenderKeyDistribution m.
Definition GetProtocolMessage (m : Message) := Protocol m.

(** A message that carries only a text body. *)
Definition text (body : string) : Message :=
  mkMessage (Some body) None None None None None.

End waProto.

(** *** Events handed to the event sink *)

Record events_Message : Type := mkEventsMessage {
  Info : MessageInfo;
  Message : option waProto.Message;
  IsEphemeral : bool;
  IsViewOnce : bool;
  RawMessage : waProto.Message;
}.

Inductive event : Type :=
| EvMessage (evt : events_Message)
| EvUndecryptableMessage (info : MessageInfo) (IsUnavailable : bool)
| EvIdentityChange (jid : JID) (timestamp : Time) (Implicit : bool).

(** The tasks message.go starts with a [go] statement.  They run
    detached; message.go never waits for them. *)
Inductive task : Type :=
| sendAck (node : Node)
| sendRetryReceipt (node : Node) (unavailable : bool)
| sendMessageReceipt (info : MessageInfo)
| handleProtocolMessage (info : MessageInfo) (msg : waProto.Message).

Inductive log_level : Type := LevelDebug | LevelWarn | LevelError.

(** The sentinel [signalerror.ErrUntrustedIdentity] of the Signal library. *)
Definition ErrUntrustedIdentity : string := "untrusted identity".
(** ** External collaborators

    What message.go calls and does not define: the Signal library with
    the key store behind it, the protobuf decoder, the clock and two
    methods of [types.JID].  [World] is the state these share. *)

Class Collaborators : Type := {
  World : Type;
  SignalAddress : Type;
  SenderKeyName : Type;
  PreKeySignalMessage : Type;
  SignalMessage : Type;
  SenderKeyMessage : Type;
  SenderKeyDistribution : Type;
  (* package types *)
  JID_ToNonAD : JID → JID;
  JID_String : JID → string;
  JID_SignalAddress : JID → SignalAddress;
  SignalAddress_String : SignalAddress → string;
  (* package protocol *)
  NewSenderKeyName : string → SignalAddress → SenderKeyName;
  NewPreKeySignalMessageFromBytes : bytes → result PreKeySignalMessage;
  NewSignalMessageFromBytes : bytes → result SignalMessage;
  NewSenderKeyMessageFromBytes : bytes → result SenderKeyMessage;
  NewSenderKeyDistributionMessageFromBytes : bytes → result SenderKeyDistribution;
  (* packages session and groups, working on the store *)
  Cipher_DecryptMessageReturnKey :
    SignalAddress → PreKeySignalMessage → World → result bytes * World;
  Cipher_Decrypt : SignalAddress → SignalMessage → World → result bytes * World;
  GroupCipher_Decrypt : SenderKeyName → SenderKeyMessage → World → result bytes * World;
  GroupSessionBuilder_Process : SenderKeyName → SenderKeyDistribution → World → World;
  (* the store *)
  Identities_DeleteIdentity : string → World → option error * World;
  Sessions_DeleteSession : string → World → option error * World;
  (* time and protobuf *)
  time_Now : World → Time;
  proto_Unmarshal : bytes → result waProto.Message;
}.

(** ** The client *)

Section Client.

Context `{!Collaborators}.

(** A call into the Signal library or the store. *)
Inductive call : Type :=
| CallDecryptMessageReturnKey (address : SignalAddress) (msg : PreKeySignalMessage)
| CallDecrypt (address : SignalAddress) (msg : SignalMessage)
| CallGroupDecrypt (name : SenderKeyName) (msg : SenderKeyMessage)
| CallProcess (name : SenderKeyName) (msg : SenderKeyDistribution)
| CallDeleteIdentity (address : string)
| CallDeleteSession (address : string).

(** What a method of the client does besides returning: in order, the
    tasks it starts, the events it dispatches, the lines it logs and
    the calls it makes. *)
Inductive action : Type :=
| Go (t : task)
| DispatchEvent (evt : event)
| Log (level : log_level) (format : string)
| Call (c : call).

(** [cli.Store.ID] is a pointer, nil before the client is logged in. *)
Record Client : Type := mkClient {
  Store_ID : option JID;
}.

(** A method of the client: from the state of the world to an outcome,
    the new state and the actions performed. *)
Definition M (A : Type) : Type := World → exec A * World * list action.

#[global] Instance M_ret : MRet M := λ A a w, (Return a, w, []).
#[global] Instance M_bind : MBind M := λ A B f m w,
  match m w with
  | (Return a, w1, t1) =>
      match f a w1 with
      | (r, w2, t2) => (r, w2, t1 ++ t2)
      end
  | (Panic p, w1, t1) => (Panic p, w1, t1)
  end.

Definition perform (a : action) : M unit := λ w, (Return tt, w, [a]).
Definition lift {A} (e : exec A) : M A := λ w, (e, w, []).
Definition invoke {A} (c : call) (f : World → A * World) : M A := λ w,
  match f w with
  | (a, w1) => (Return a, w1, [Call c])
  end.
Definition now : M Time := λ w, (Return (time_Now w), w, []).

Definition go (t : task) : M unit := perform (Go t).
Definition dispatchEvent (evt : event) : M unit := perform (DispatchEvent evt).
Definition Log_Debugf (format : string) : M unit := perform (Log LevelDebug format).
Definition Log_Warnf (format : string) : M unit := perform (Log LevelWarn format).
Definition Log_Errorf (format : string) : M unit := perform (Log LevelError format).

Definition DecryptMessageReturnKey (address : SignalAddress)
    (msg : PreKeySignalMessage) : M (result bytes) :=
  invoke (CallDecryptMessageReturnKey address msg)
         (Cipher_DecryptMessageReturnKey address msg).
Definition Decrypt (address : SignalAddress) (msg : SignalMessage) : M (result bytes) :=
  invoke (CallDecrypt address msg) (Cipher_Decrypt address msg).
Definition GroupDecrypt (name : SenderKeyName) (msg : SenderKeyMessage)
    : M (result bytes) :=
  invoke (CallGroupDecrypt name msg) (GroupCipher_Decrypt name msg).
Definition Process (name : SenderKeyName) (msg : SenderKeyDistribution) : M unit :=
  invoke (CallProcess name msg) (λ w, (tt, GroupSessionBuilder_Process name msg w)).
Definition DeleteIdentity (address : string) : M (option error) :=
  invoke (CallDeleteIdentity address) (Identities_DeleteIdentity address).
Definition DeleteSession (address : string) : M (option error) :=
  invoke (CallDeleteSession address) (Sessions_DeleteSession address).

(** The [err] of a result pair. *)
Definition err_of {A} (r : result A) : option error :=
  match r with
  | Ok _ => None
  | Err e => Some e
  end.

(** *** Message source resolver (lines 48-84) *)

Definition parseMessageSource (cli : Client) (node : Node)
    : exec (MessageSource * option error) :=
  let source := MessageSource_zero in
  match attr_JID node "from" with
  | None =>
      mret (source, Some (Errorf "didn't find valid `from` attribute in message"))
  | Some from =>
      if bool_decide (Server from = GroupServer) || bool_decide (Server from = BroadcastServer)
      then
        let source := set_IsGroup true source in
        let source := set_Chat from source in
        '(source, err) ←
          match attr_JID node "participant" with
          | None =>
              mret (source,
                    Some (Errorf "didn't find valid `participant` attribute in group message"))
          | Some sender =>
              let source := set_Sender sender source in
              match Store_ID cli with
              | None => Panic NilDereference
              | Some id =>
                  if bool_decide (User (Sender source) = User id)
                  then mret (set_IsFromMe true source, None)
                  else mret (source, None)
              end
          end;
        if bool_decide (Server from = BroadcastServer)
        then
          match attr_JID node "recipient" with
          | Some recipient => mret (set_BroadcastListOwner recipient source, err)
          | None => mret (source, err)
          end
        else mret (source, err)
      else
        match Store_ID cli with
        | None => Panic NilDereference
        | Some id =>
            if bool_decide (User from = User id)
            then
              let source := set_IsFromMe true source in
              let source := set_Sender from source in
              match attr_JID node "recipient" with
              | None => mret (set_Chat (JID_ToNonAD from) source, None)
              | Some recipient => mret (set_Chat recipient source, None)
              end
            else
              let source := set_Chat (JID_ToNonAD from) source in
              let source := set_Sender from source in
              mret (source, None)
        end
  end.

(** *** Pairwise decryptor (lines 165-204) *)

Definition decryptDM (child : Node) (from : JID) (isPreKey : bool)
    : M (result bytes) :=
  let content := content_bytes child in
  let address := JID_SignalAddress from in
  if isPreKey then
    match NewPreKeySignalMessageFromBytes content with
    | Err err => mret (Err (Wrapf "failed to parse prekey message: %w" err))
    | Ok preKeyMsg =>
        r ← DecryptMessageReturnKey address preKeyMsg;
        r ← (if errors_Is (err_of r) ErrUntrustedIdentity then
               Log_Warnf "Got %v error while trying to decrypt prekey message from %s, clearing stored identity and retrying";;
               err ← DeleteIdentity (SignalAddress_String address);
               (if err is Some _
                then Log_Warnf "Failed to delete identity of %s from store after decryption error: %v"
                else mret tt);;
               err ← DeleteSession (SignalAddress_String address);
               (if err is Some _
                then Log_Warnf "Failed to delete session with %s from store after decryption error: %v"
                else mret tt);;
               timestamp ← now;
               dispatchEvent (EvIdentityChange from timestamp true);;
               DecryptMessageReturnKey address preKeyMsg
             else mret r);
        match r with
        | Err err => mret (Err (Wrapf "failed to decrypt prekey message: %w" err))
        | Ok plaintext => lift (unpadMessage plaintext)
        end
    end
  else
    match NewSignalMessageFromBytes content with
    | Err err => mret (Err (Wrapf "failed to parse normal message: %w" err))
    | Ok msg =>
        r ← Decrypt address msg;
        match r with
        | Err err => mret (Err (Wrapf "failed to decrypt normal message: %w" err))
        | Ok plaintext => lift (unpadMessage plaintext)
        end
    end.

(** *** Group decryptor (lines 206-221) *)

Definition decryptGroupMsg (child : Node) (from chat : JID) : M (result bytes) :=
  let content := content_bytes child in
  let senderKeyName := NewSenderKeyName (JID_String chat) (JID_SignalAddress from) in
  match NewSenderKeyMessageFromBytes content with
  | Err err => mret (Err (Wrapf "failed to parse group message: %w" err))
  | Ok msg =>
      r ← GroupDecrypt senderKeyName msg;
      match r with
      | Err err => mret (Err (Wrapf "failed to decrypt group message: %w" err))
      | Ok plaintext => lift (unpadMessage plaintext)
      end
  end.

(** *** Sender key distribution (lines 252-262) *)

Definition handleSenderKeyDistributionMessage (chat from : JID)
    (rawSKDMsg : waProto.SenderKeyDistributionMessage) : M unit :=
  let senderKeyName := NewSenderKeyName (JID_String chat) (JID_SignalAddress from) in
  match NewSenderKeyDistributionMessageFromBytes
          (waProto.AxolotlSenderKeyDistributionMessage rawSKDMsg) with
  | Err err =>
      Log_Errorf "Failed to parse sender key distribution message from %s for %s: %v"
  | Ok sdkMsg =>
      Process senderKeyName sdkMsg;;
      Log_Debugf "Processed sender key distribution message from %s in %s"
  end.

(** *** Unwrapper of decrypted messages (lines 330-366) *)

Definition handleDecryptedMessage (info : MessageInfo) (msg : waProto.Message)
    : M unit :=
  let evt := {| Info := info; Message := None; IsEphemeral := false;
                IsViewOnce := false; RawMessage := msg |} in
  (* First unwrap device sent messages *)
  let '(msg, evt) :=
    match waProto.GetMessage_DeviceSent (waProto.GetDeviceSentMessage msg) with
    | Some inner =>
        let msg := inner in
        let meta :=
          {| DestinationJID := waProto.GetDestinationJid (waProto.GetDeviceSentMessage msg);
             Phash := waProto.GetPhash (waProto.GetDeviceSentMessage msg) |} in
        (msg, {| Info := set_DeviceSentMeta (Some meta) (Info evt);
                 Message := Message evt; IsEphemeral := IsEphemeral evt;
                 IsViewOnce := IsViewOnce evt; RawMessage := RawMessage evt |})
    | None => (msg, evt)
    end in
  match waProto.GetSenderKeyDistributionMessage msg with
  | Some skdm =>
      if negb (IsGroup info)
      then Log_Warnf "Got sender key distribution message in non-group chat from"
      else handleSenderKeyDistributionMessage (Chat info) (Sender info) skdm
  | None => mret tt
  end;;
  (if waProto.GetProtocolMessage msg is Some _
   then go (handleProtocolMessage info msg)
   else mret tt);;
  (* Unwrap ephemeral and view-once messages *)
  let '(msg, evt) :=
    match waProto.GetMessage_FutureProof (waProto.GetEphemeralMessage msg) with
    | Some inner =>
        (inner, {| Info := Info evt; Message := Message evt; IsEphemeral := true;
                   IsViewOnce := IsViewOnce evt; RawMessage := RawMessage evt |})
    | None => (msg, evt)
    end in
  let '(msg, evt) :=
    match waProto.GetMessage_FutureProof (waProto.GetViewOnceMessage msg) with
    | Some inner =>
        (inner, {| Info := Info evt; Message := Message evt; IsEphemeral := IsEphemeral evt;
                   IsViewOnce := true; RawMessage := RawMessage evt |})
    | None => (msg, evt)
    end in
  let evt := {| Info := Info evt; Message := Some msg; IsEphemeral := IsEphemeral evt;
                IsViewOnce := IsViewOnce evt; RawMessage := RawMessage evt |} in
  dispatchEvent (EvMessage evt).

(** *** Decryption dispatcher (lines 114-163) *)

(** How the loop over the children ends: by the [return] inside it, or
    by running off the end with the flag [handled]. *)
Inductive loop_exit : Type :=
| LoopReturn
| LoopEnd (handled : bool).

Fixpoint decryptLoop (info : MessageInfo) (node : Node)
    (children : list Node) (handled : bool) : M loop_exit :=
  match children with
  | [] => mret (LoopEnd handled)
  | child :: rest =>
      if negb (bool_decide (Tag child = "enc")) then decryptLoop info node rest handled
      else
        match attr_string child "type" with
        | None => decryptLoop info node rest handled
        | Some encType =>
            let after (r : result bytes) : M loop_exit :=
              match r with
              | Err err =>
                  Log_Warnf "Error decrypting message from %s: %v";;
                  go (sendRetryReceipt node false);;
                  dispatchEvent (EvUndecryptableMessage info false);;
                  mret LoopReturn
              | Ok decrypted =>
                  match proto_Unmarshal decrypted with
                  | Err err =>
                      Log_Warnf "Error unmarshaling decrypted message from %s: %v";;
                      decryptLoop info node rest handled
                  | Ok msg =>
                      handleDecryptedMessage info msg;;
                      decryptLoop info node rest true
                  end
              end in
            if bool_decide (encType = "pkmsg") || bool_decide (encType = "msg") then
              r ← decryptDM child (Sender info) (bool_decide (encType = "pkmsg"));
              after r
            else if IsGroup info && bool_decide (encType = "skmsg") then
              r ← decryptGroupMsg child (Sender info) (Chat info);
              after r
            else
              Log_Warnf "Unhandled encrypted message (type %s) from %s";;
              decryptLoop info node rest handled
        end
  end.

Definition decryptMessages (info : MessageInfo) (node : Node) : M unit :=
  go (sendAck node);;
  if bool_decide (length (GetChildrenByTag node "unavailable") = length (GetChildren node))
  then
    Log_Warnf "Unavailable message %s from %s";;
    go (sendRetryReceipt node true);;
    dispatchEvent (EvUndecryptableMessage info true)
  else
    let children := GetChildren node in
    Log_Debugf "Decrypting %d messages from %s";;
    exit ← decryptLoop info node children false;
    match exit with
    | LoopEnd true => go (sendMessageReceipt info)
    | _ => mret tt
    end.

End Client.

(** The routing decision of the loop body (lines 126-142) on its own:
    a child is passed over silently, logged as unhandled, or given to
    one of the two decryptors. *)
Inductive routing `{!Collaborators} : Type :=
| Skipped
| Unhandled
| Routed (decrypt : M (result bytes)).

Definition route `{!Collaborators} (info : MessageInfo) (child : Node) : routing :=
  if negb (bool_decide (Tag child = "enc")) then Skipped
  else
    match attr_string child "type" with
    | None => Skipped
    | Some encType =>
        if bool_decide (encType = "pkmsg") || bool_decide (encType = "msg") then
          Routed (decryptDM child (Sender info) (bool_decide (encType = "pkmsg")))
        else if IsGroup info && bool_decide (encType = "skmsg") then
          Routed (decryptGroupMsg child (Sender info) (Chat info))
        else Unhandled
    end.

(** What the loop does with the outcome of a routed decryption
    (lines 143-158), [continue] standing for the rest of the loop. *)
Definition after_decrypt `{!Collaborators} (info : MessageInfo) (node : Node)
    (continue : bool → M loop_exit) (handled : bool) (r : result bytes) : M loop_exit :=
  match r with
  | Err err =>
      Log_Warnf "Error decrypting message from %s: %v";;
      go (sendRetryReceipt node false);;
      dispatchEvent (EvUndecryptableMessage info false);;
      mret LoopReturn
  | Ok decrypted =>
      match proto_Unmarshal decrypted with
      | Err err =>
          Log_Warnf "Error unmarshaling decrypted message from %s: %v";;
          continue handled
      | Ok msg =>
          handleDecryptedMessage info msg;;
          continue true
      end
  end.

(** How the loop goes on after a prefix of the children. *)
Definition resume `{!Collaborators} (info : MessageInfo) (node : Node)
    (rest : list Node) (exit : loop_exit) : M loop_exit :=
  match exit with
  | LoopReturn => mret LoopReturn
  | LoopEnd handled => decryptLoop info node rest handled
  end.

(** *** Observations on a run *)

Section Observations.

Context `{!Collaborators}.

Definition is_decrypt_call (a : action) : bool :=
  match a with
  | Call (CallDecryptMessageReturnKey _ _) => true
  | Call (CallDecrypt _ _) => true
  | Call (CallGroupDecrypt _ _) => true
  | _ => false
  end.

Definition is_delete_call (a : action) : bool :=
  match a with
  | Call (CallDeleteIdentity _) => true
  | Call (CallDeleteSession _) => true
  | _ => false
  end.

Definition is_identity_change (a : action) : bool :=
  match a with
  | DispatchEvent (EvIdentityChange _ _ _) => true
  | _ => false
  end.

Definition is_undecryptable (a : action) : bool :=
  match a with
  | DispatchEvent (EvUndecryptableMessage _ _) => true
  | _ => false
  end.

Definition is_message_event (a : action) : bool :=
  match a with
  | DispatchEvent (EvMessage _) => true
  | _ => false
  end.

Definition is_retry_receipt (a : action) : bool :=
  match a with
  | Go (sendRetryReceipt _ _) => true
  | _ => false
  end.

Definition is_message_receipt (a : action) : bool :=
  match a with
  | Go (sendMessageReceipt _) => true
  | _ => false
  end.

(** How many actions of a kind a trace holds. *)
Definition count (kind : action → bool) (actions : list action) : nat :=
  length (filter (λ a, kind a = true) actions).

(** The outcome, final world and trace of a run. *)
Definition outcome {A} (run : exec A * World * list action) : exec A := run.1.1.
Definition final {A} (run : exec A * World * list action) : World := run.1.2.
Definition trace {A} (run : exec A * World * list action) : list action := run.2.

(** Every action of [m], in every world, satisfies [P]. *)
Definition emits {A} (P : action → Prop) (m : M A) : Prop :=
  ∀ w, Forall P (trace (m w)).


(** Neither decryptor starts a task or dispatches anything but an
    identity change. *)
Definition quiet (a : action) : Prop :=
  match a with
  | Log _ _ | Call _ | DispatchEvent (EvIdentityChange _ _ _) => True
  | _ => False
  end.

End Observations.

(** ** A small instance of the collaborators

    Enough of an engine to run the client on concrete nodes: ciphertexts
    are their own plaintexts, a ciphertext that starts with a zero byte
    fails to decrypt, and a pre-key message is refused with
    [ErrUntrustedIdentity] as long as the store holds a stale identity. *)

Module Toy.

Record world : Type := mkWorld {
  stale_identity : bool;
  clock : Z;
}.

Definition decrypt (ciphertext : bytes) : result bytes :=
  match ciphertext with
  | x00 :: _ => Err (Errorf "bad mac")
  | _ => Ok ciphertext
  end.

Definition unmarshal (b : bytes) : result waProto.Message :=
  match b with
  | [] => Err (Errorf "proto: empty message")
  | _ => Ok (waProto.text (String.string_of_list_byte b))
  end.

#[export] Instance collaborators : Collaborators := {|
  World := world;
  SignalAddress := string;
  SenderKeyName := string * string;
  PreKeySignalMessage := bytes;
  SignalMessage := bytes;
  SenderKeyMessage := bytes;
  SenderKeyDistribution := bytes;
  JID_ToNonAD jid := {| User := User jid; Device := 0; Server := Server jid |};
  JID_String jid := User jid +:+ "@" +:+ Server jid;
  JID_SignalAddress jid := User jid;
  SignalAddress_String address := address;
  NewSenderKeyName group address := (group, address);
  NewPreKeySignalMessageFromBytes b := Ok b;
  NewSignalMessageFromBytes b := Ok b;
  NewSenderKeyMessageFromBytes b := Ok b;
  NewSenderKeyDistributionMessageFromBytes b := Ok b;
  Cipher_DecryptMessageReturnKey _ msg w :=
    if stale_identity w
    then (Err (Sentinel ErrUntrustedIdentity), w)
    else (decrypt msg, w);
  Cipher_Decrypt _ msg w := (decrypt msg, w);
  GroupCipher_Decrypt _ msg w := (decrypt msg, w);
  GroupSessionBuilder_Process _ _ w := w;
  Identities_DeleteIdentity _ w :=
    (None, {| stale_identity := false; clock := clock w |});
  Sessions_DeleteSession _ w := (None, w);
  time_Now := clock;
  proto_Unmarshal := unmarshal;
|}.

Definition enc (type : string) (ciphertext : bytes) : Node :=
  {| Tag := "enc"; Attrs := {[ "type" := AttrString type ]};
     Content := ContentBytes ciphertext |}.

Definition unavailable : Node :=
  {| Tag := "unavailable"; Attrs := ∅; Content := ContentNil |}.

Definition peer : JID := {| User := "123"; Device := 0; Server := "s.whatsapp.net" |}.

Definition info : MessageInfo :=
  {| Source := {| Chat := peer; Sender := peer; IsFromMe := false;
                  IsGroup := false; BroadcastListOwner := JID_zero |};
     ID := "3EB0"; PushName := ""; Timestamp := 1600000000%Z; Category := "";
     DeviceSentMeta := None |}.

Definition message (children : list Node) : Node :=
  {| Tag := "message"; Attrs := {[ "from" := AttrJID peer ]};
     Content := ContentNodes children |}.

(** The event dispatched for a text message of [peer]. *)
Definition text_event (body : string) : action :=
  DispatchEvent (EvMessage
    {| Info := info; Message := Some (waProto.text body); IsEphemeral := false;
       IsViewOnce := false; RawMessage := waProto.text body |}).

End Toy.

(** A device-sent wrapper around an ephemeral wrapper around a text body. *)
Definition device_sent_example : waProto.Message :=
  let body := waProto.text "hello" in
  let ephemeral :=
    waProto.mkMessage None None None None
      (Some (waProto.mkFutureProofMessage (Some body))) None in
  waProto.mkMessage None None None
    (Some (waProto.mkDeviceSentMessage
             (Some "123@s.whatsapp.net") (Some "2:abcdefgh") (Some ephemeral)))
    None None.

(** ** The rest of message.go

    The entry point, the message info extractor and the handlers of
    protocol messages, with what they call besides the collaborators
    above. *)

(** *** [strconv.ParseInt(s, 10, 64)] *)

Module strconv.

Definition ErrSyntax : string := "invalid syntax".
Definition ErrRange : string := "value out of range".

Definition maxUint64 : Z := 2 ^ 64 - 1.

(** The value of a decimal digit; every other byte is a syntax error in
    base 10. *)
Definition digit (c : Ascii.ascii) : option Z :=
  let n := Z.of_N (Ascii.N_of_ascii c) in
  if ((48 <=? n) && (n <=? 57))%Z then Some (n - 48)%Z else None.

(** [ParseUint(s, 10, 64)]: the value and the error, as Go returns
    them; [n] is the value accumulated so far. *)
Fixpoint ParseUint_loop (s : string) (n : Z) : Z * option string :=
  match s with
  | EmptyString => (n, None)
  | String c rest =>
      match digit c with
      | None => (0, Some ErrSyntax)%Z
      | Some d =>
          if (n >=? maxUint64 / 10 + 1)%Z then (maxUint64, Some ErrRange)
          else
            let n1 := (n * 10 + d)%Z in
            if (n1 >? maxUint64)%Z then (maxUint64, Some ErrRange)
            else ParseUint_loop rest n1
      end
  end.

Definition ParseUint (s : string) : Z * option string :=
  match s with
  | EmptyString => (0, Some ErrSyntax)%Z
  | _ => ParseUint_loop s 0
  end.

(** The [*NumError] of [ParseInt] around one of the two sentinels. *)
Definition NumError (name : string) : error :=
  Wrapf "strconv.ParseInt: parsing %q: %w" (Sentinel name).

Definition ParseInt (s : string) : result Z :=
  match s with
  | EmptyString => Err (NumError ErrSyntax)
  | String c rest =>
      (* Pick off leading sign. *)
      let '(neg, digits) :=
        if Ascii.eqb c (Ascii.ascii_of_byte x2b) then (false, rest)
        else if Ascii.eqb c (Ascii.ascii_of_byte x2d) then (true, rest)
        else (false, s) in
      (* Convert unsigned and check range. *)
      let '(un, err) := ParseUint digits in
      let cutoff := (2 ^ 63)%Z in
      match err with
      | Some name =>
          if negb (String.eqb name ErrRange) then Err (NumError name)
          else if negb neg && (un >=? cutoff)%Z then Err (NumError ErrRange)
          else if neg && (un >? cutoff)%Z then Err (NumError ErrRange)
          else Ok (if neg then - un else un)%Z
      | None =>
          if negb neg && (un >=? cutoff)%Z then Err (NumError ErrRange)
          else if neg && (un >? cutoff)%Z then Err (NumError ErrRange)
          else Ok (if neg then - un else un)%Z
      end
  end.

End strconv.

(** *** Further collaborators

    What the entry point and the protocol message handlers call outside
    message.go: other methods of the client, the app state key store, the
    generated getters of the control payloads, [zlib], [io] and [time]. *)

Record proto_AppStateSyncKey (fingerprint : Type) : Type := mkProtoAppStateSyncKey {
  KeyId : bytes;
  KeyData : bytes;
  KeyFingerprint : fingerprint;
  KeyTimestamp : Z;
}.
Arguments mkProtoAppStateSyncKey {fingerprint}.
Arguments KeyId {fingerprint}.
Arguments KeyData {fingerprint}.
Arguments KeyFingerprint {fingerprint}.
Arguments KeyTimestamp {fingerprint}.

Record store_AppStateSyncKey : Type := mkStoreAppStateSyncKey {
  Data : bytes;
  Fingerprint : bytes;
  StoredTimestamp : Z;
}.

Class Services `{!Collaborators} : Type := {
  HistorySync : Type;
  Pushname : Type;
  KeyFingerprintMessage : Type;
  ZlibReader : Type;
  (* packages time and types, and the table of package appstate *)
  time_Unix : Z → Z → Time;
  NewJID : string → string → JID;
  LegacyUserServer : string;
  AllPatchNames : list string;
  (* generated getters *)
  HistorySync_PUSH_NAME : N;
  GetSyncType : HistorySync → N;
  GetPushnames : HistorySync → list Pushname;
  GetKeys : bytes → list (proto_AppStateSyncKey KeyFingerprintMessage);
  (* zlib, io and protobuf *)
  zlib_NewReader : bytes → result ZlibReader;
  io_ReadAll : ZlibReader → result bytes;
  proto_Unmarshal_HistorySync : bytes → result HistorySync;
  proto_Marshal : KeyFingerprintMessage → result bytes;
  (* other methods of the client, and the store *)
  Client_Download : bytes → World → result bytes * World;
  Client_FetchAppState : string → bool → bool → World → option error * World;
  Client_sendNode : Node → World → option error * World;
  AppStateKeys_PutAppStateSyncKey :
    bytes → store_AppStateSyncKey → World → option error * World;
}.

Section Handlers.

Context `{!Collaborators} `{!Services}.

(** A call of one of the further collaborators that works on the world. *)
Inductive service_call : Type :=
| CallDownload (notif : bytes)
| CallFetchAppState (name : string) (fullSync onlyIfNotSynced : bool)
| CallSendNode (node : Node)
| CallPutAppStateSyncKey (id : bytes) (key : store_AppStateSyncKey).

(** What the functions below do besides returning: the actions of the
    functions above, and three kinds of their own. *)
Inductive effect : Type :=
| Core (a : action)
| GoUpdatePushName (sender : JID) (info : MessageInfo) (name : string)
| GoHandleHistoricalPushNames (names : list Pushname)
| DispatchHistorySync (data : HistorySync)
| Service (c : service_call).

Definition E (A : Type) : Type := World → exec A * World * list effect.

#[global] Instance E_ret : MRet E := λ A a w, (Return a, w, []).
#[global] Instance E_bind : MBind E := λ A B f m w,
  match m w with
  | (Return a, w1, t1) =>
      match f a w1 with
      | (r, w2, t2) => (r, w2, t1 ++ t2)
      end
  | (Panic p, w1, t1) => (Panic p, w1, t1)
  end.

(** A method of the first part, called from here. *)
Definition core {A} (m : M A) : E A := λ w,
  match m w with
  | (r, w1, t) => (r, w1, Core <$> t)
  end.

Definition effect_of (e : effect) : E unit := λ w, (Return tt, w, [e]).
Definition pure_exec {A} (e : exec A) : E A := λ w, (e, w, []).
Definition service {A} (c : service_call) (f : World → A * World) : E A := λ w,
  match f w with
  | (a, w1) => (Return a, w1, [Service c])
  end.

Definition E_Debugf (format : string) : E unit := effect_of (Core (Log LevelDebug format)).
Definition E_Warnf (format : string) : E unit := effect_of (Core (Log LevelWarn format)).
Definition E_Errorf (format : string) : E unit := effect_of (Core (Log LevelError format)).

Definition Download (notif : bytes) : E (result bytes) :=
  service (CallDownload notif) (Client_Download notif).
Definition FetchAppState (name : string) (fullSync onlyIfNotSynced : bool)
    : E (option error) :=
  service (CallFetchAppState name fullSync onlyIfNotSynced)
          (Client_FetchAppState name fullSync onlyIfNotSynced).
Definition sendNode (node : Node) : E (option error) :=
  service (CallSendNode node) (Client_sendNode node).
Definition PutAppStateSyncKey (id : bytes) (key : store_AppStateSyncKey)
    : E (option error) :=
  service (CallPutAppStateSyncKey id key) (AppStateKeys_PutAppStateSyncKey id key).

(** *** Message info extractor (lines 86-112) *)

Definition parseMessageInfo (cli : Client) (node : Node) : exec (result MessageInfo) :=
  '(source, err) ← parseMessageSource cli node;
  match err with
  | Some err => mret (Err err)
  | None =>
      match attr_string node "id" with
      | None => mret (Err (Errorf "didn't find valid `id` attribute in message"))
      | Some id =>
          match attr_string node "t" with
          | None =>
              mret (Err (Errorf "didn't find valid `t` (timestamp) attribute in message"))
          | Some ts =>
              match strconv.ParseInt ts with
              | Err err =>
                  mret (Err (Wrapf
                    "didn't find valid `t` (timestamp) attribute in message: %w" err))
              | Ok tsInt =>
                  mret (Ok {| Source := source;
                              ID := id;
                              PushName := default "" (attr_string node "notify");
                              Timestamp := time_Unix tsInt 0;
                              Category := default "" (attr_string node "category");
                              DeviceSentMeta := None |})
              end
          end
      end
  end.

(** *** Entry point (lines 36-46) *)

Definition handleEncryptedMessage (cli : Client) (node : Node) : E unit :=
  r ← pure_exec (parseMessageInfo cli node);
  match r with
  | Err err => E_Warnf "Failed to parse message: %v"
  | Ok info =>
      (if (0 <? String.length (PushName info))%nat
          && negb (bool_decide (PushName info = "-"))
       then effect_of (GoUpdatePushName (Sender info) info (PushName info))
       else mret tt);;
      core (decryptMessages info node)
  end.

(** *** History sync (lines 264-283) *)

Definition handleHistorySyncNotification (notif : bytes) : E unit :=
  r ← Download notif;
  match r with
  | Err err => E_Errorf "Failed to download history sync data: %v"
  | Ok data =>
      match zlib_NewReader data with
      | Err err => E_Errorf "Failed to create zlib reader for history sync data: %v"
      | Ok reader =>
          match io_ReadAll reader with
          | Err err => E_Errorf "Failed to decompress history sync data: %v"
          | Ok rawData =>
              match proto_Unmarshal_HistorySync rawData with
              | Err err => E_Errorf "Failed to unmarshal history sync data: %v"
              | Ok historySync =>
                  E_Debugf "Received history sync";;
                  (if bool_decide (GetSyncType historySync = HistorySync_PUSH_NAME)
                   then effect_of (GoHandleHistoricalPushNames (GetPushnames historySync))
                   else mret tt);;
                  effect_of (DispatchHistorySync historySync)
              end
          end
      end
  end.

(** *** App state keys (lines 285-311) *)

Fixpoint storeKeys (keys : list (proto_AppStateSyncKey KeyFingerprintMessage)) : E unit :=
  match keys with
  | [] => mret tt
  | key :: rest =>
      match proto_Marshal (KeyFingerprint key) with
      | Err err =>
          E_Errorf "Failed to marshal fingerprint of app state sync key %X";;
          storeKeys rest
      | Ok marshaledFingerprint =>
          err ← PutAppStateSyncKey (KeyId key)
                  {| Data := KeyData key;
                     Fingerprint := marshaledFingerprint;
                     StoredTimestamp := KeyTimestamp key |};
          match err with
          | Some _ =>
              E_Errorf "Failed to store app state sync key %X";;
              storeKeys rest
          | None =>
              E_Debugf "Received app state sync key %X";;
              storeKeys rest
          end
      end
  end.

Fixpoint fetchAll (names : list string) : E unit :=
  match names with
  | [] => mret tt
  | name :: rest =>
      err ← FetchAppState name false true;
      (if err is Some _
       then E_Errorf "Failed to do initial fetch of app state %s: %v"
       else mret tt);;
      fetchAll rest
  end.

Definition handleAppStateSyncKeyShare (keys : bytes) : E unit :=
  E_Debugf "Got %d new app state keys";;
  storeKeys (GetKeys keys);;
  fetchAll AllPatchNames.

(** *** Protocol receipts (lines 368-384) *)

Definition sendProtocolMessageReceipt (cli : Client) (id msgType : string) : E unit :=
  if bool_decide (String.length id = 0) || bool_decide (Store_ID cli = None) then mret tt
  else
    storeID ← pure_exec (match Store_ID cli with
                         | Some storeID => Return storeID
                         | None => Panic NilDereference
                         end);
    err ← sendNode
            {| Tag := "receipt";
               Attrs := {[ "id" := AttrString id;
                           "type" := AttrString msgType;
                           "to" := AttrJID (NewJID (User storeID) LegacyUserServer) ]};
               Content := ContentNil |};
    if err is Some _
    then E_Warnf "Failed to send acknowledgement for protocol message %s: %v"
    else mret tt.

(** *** Protocol messages (lines 313-328)

    The body of the task [handleProtocolMessage]. *)

Definition handleProtocolMessage_body (cli : Client) (info : MessageInfo)
    (msg : waProto.Message) : E unit :=
  let protoMsg := waProto.GetProtocolMessage msg in
  match protoMsg ≫= waProto.HistorySyncNotification with
  | Some notif =>
      if IsFromMe info then
        handleHistorySyncNotification notif;;
        sendProtocolMessageReceipt cli (ID info) "hist_sync"
      else mret tt
  | None => mret tt
  end;;
  match protoMsg ≫= waProto.AppStateSyncKeyShare with
  | Some keys =>
      if IsFromMe info then handleAppStateSyncKeyShare keys else mret tt
  | None => mret tt
  end;;
  if bool_decide (Category info = "peer")
  then sendProtocolMessageReceipt cli (ID info) "peer_msg"
  else mret tt.

End Handlers.

(** *** Observations on the further functions *)

Section MoreObservations.

Context `{!Collaborators} `{!Services}.

Definition is_ack (a : action) : bool :=
  match a with
  | Go (sendAck _) => true
  | _ => false
  end.

Definition is_group_decrypt (a : action) : bool :=
  match a with
  | Call (CallGroupDecrypt _ _) => true
  | _ => false
  end.

Definition is_process_call (a : action) : bool :=
  match a with
  | Call (CallProcess _ _) => true
  | _ => false
  end.

Definition is_protocol_task (a : action) : bool :=
  match a with
  | Go (handleProtocolMessage _ _) => true
  | _ => false
  end.

(** The actions the loop over the children of [node] can perform. *)
Definition loop_action (info : MessageInfo) (node : Node) (a : action) : Prop :=
  match a with
  | Log _ _ => True
  | Call (CallGroupDecrypt _ _) | Call (CallProcess _ _) => IsGroup info = true
  | Call _ => True
  | DispatchEvent (EvIdentityChange jid _ Implicit) => jid = Sender info ∧ Implicit = true
  | DispatchEvent (EvUndecryptableMessage i unavailable) => i = info ∧ unavailable = false
  | DispatchEvent (EvMessage evt) => ID (Info evt) = ID info
  | Go (sendRetryReceipt n unavailable) => n = node ∧ unavailable = false
  | Go (handleProtocolMessage i _) => i = info
  | Go _ => False
  end.

(** How many effects of a kind a run holds. *)
Definition tally (kind : effect → bool) (effects : list effect) : nat :=
  length (filter (λ e, kind e = true) effects).

Definition is_download (e : effect) : bool :=
  match e with
  | Service (CallDownload _) => true
  | _ => false
  end.

Definition is_put (e : effect) : bool :=
  match e with
  | Service (CallPutAppStateSyncKey _ _) => true
  | _ => false
  end.

Definition is_fetch (e : effect) : bool :=
  match e with
  | Service (CallFetchAppState _ _ _) => true
  | _ => false
  end.

Definition is_send (e : effect) : bool :=
  match e with
  | Service (CallSendNode _) => true
  | _ => false
  end.

Definition is_history_event (e : effect) : bool :=
  match e with
  | DispatchHistorySync _ => true
  | _ => false
  end.

Definition is_push_name_task (e : effect) : bool :=
  match e with
  | GoHandleHistoricalPushNames _ => true
  | _ => false
  end.

Definition is_error_log (e : effect) : bool :=
  match e with
  | Core (Log LevelError _) => true
  | _ => false
  end.

(** The app state fetches of a run, in order. *)
Definition fetches (effects : list effect) : list (string * bool * bool) :=
  omap (λ e, match e with
             | Service (CallFetchAppState name fullSync onlyIfNotSynced) =>
                 Some (name, fullSync, onlyIfNotSynced)
             | _ => None
             end) effects.

(** The receipt node of [sendProtocolMessageReceipt]. *)
Definition receipt_node (user id msgType : string) : Node :=
  {| Tag := "receipt";
     Attrs := {[ "id" := AttrString id;
                 "type" := AttrString msgType;
                 "to" := AttrJID (NewJID user LegacyUserServer) ]};
     Content := ContentNil |}.

End MoreObservations.

(** A message that is only an ephemeral, or only a view-once, wrapper. *)
Definition ephemeral_wrap (inner : waProto.Message) : waProto.Message :=
  waProto.mkMessage None None None None
    (Some (waProto.mkFutureProofMessage (Some inner))) None.

Definition view_once_wrap (inner : waProto.Message) : waProto.Message :=
  waProto.mkMessage None None None None None
    (Some (waProto.mkFutureProofMessage (Some inner))).

(** A string of decimal digits. *)
Fixpoint all_digits (s : string) : bool :=
  match s with
  | EmptyString => true
  | String c rest => bool_decide (is_Some (strconv.digit c)) && all_digits rest
  end.

(** ** A small instance of the further collaborators *)

Module ToyServices.

#[export] Instance services : @Services Toy.collaborators := {|
  HistorySync := N * list string;
  Pushname := string;
  KeyFingerprintMessage := bytes;
  ZlibReader := bytes;
  time_Unix sec nsec := sec;
  NewJID user server := {| User := user; Device := 0; Server := server |};
  LegacyUserServer := "c.us";
  AllPatchNames := ["critical_block"; "regular"];
  HistorySync_PUSH_NAME := 4%N;
  GetSyncType := fst;
  GetPushnames := snd;
  GetKeys b := (λ x, mkProtoAppStateSyncKey [x] [x; x] [x] 0%Z) <$> b;
  zlib_NewReader data := match data with [] => Err (Errorf "zlib: invalid header") | _ => Ok data end;
  io_ReadAll reader := Ok reader;
  proto_Unmarshal_HistorySync raw := Ok (N.of_nat (length raw), ["Alice"]);
  proto_Marshal fingerprint := Ok fingerprint;
  Client_Download notif w := (Toy.decrypt notif, w);
  Client_FetchAppState _ _ _ w := (None, w);
  Client_sendNode _ w := (None, w);
  AppStateKeys_PutAppStateSyncKey _ _ w := (None, w);
|}.

Definition me : JID := {| User := "456"; Device := 1; Server := "s.whatsapp.net" |}.

Definition cli : Client := {| Store_ID := Some me |}.

End ToyServices.

(** *** The unwrapper in stages

    The three parts of [handleDecryptedMessage] after the device-sent
    wrapper has been removed, and the event it builds. *)

Definition device_unwrapped (msg : waProto.Message) : waProto.Message :=
  default msg (waProto.GetMessage_DeviceSent (waProto.GetDeviceSentMessage msg)).

Definition sender_key_stage `{!Collaborators} (info : MessageInfo)
    (msg : waProto.Message) : M unit :=
  match waProto.GetSenderKeyDistributionMessage msg with
  | Some skdm =>
      if negb (IsGroup info)
      then Log_Warnf "Got sender key distribution message in non-group chat from"
      else handleSenderKeyDistributionMessage (Chat info) (Sender info) skdm
  | None => mret tt
  end.

Definition protocol_stage `{!Collaborators} (info : MessageInfo)
    (msg : waProto.Message) : M unit :=
  if waProto.GetProtocolMessage msg is Some _
  then go (handleProtocolMessage info msg)
  else mret tt.

Definition unwrapped_event (info : MessageInfo) (msg : waProto.Message) : events_Message :=
  let m1 := device_unwrapped msg in
  let info1 :=
    match waProto.GetMessage_DeviceSent (waProto.GetDeviceSentMessage msg) with
    | Some inner =>
        set_DeviceSentMeta
          (Some {| DestinationJID :=
                     waProto.GetDestinationJid (waProto.GetDeviceSentMessage inner);
                   Phash := waProto.GetPhash (waProto.GetDeviceSentMessage inner) |})
          info
    | None => info
    end in
  let ephemeral := waProto.GetMessage_FutureProof (waProto.GetEphemeralMessage m1) in
  let m2 := default m1 ephemeral in
  let viewOnce := waProto.GetMessage_FutureProof (waProto.GetViewOnceMessage m2) in
  let m3 := default m2 viewOnce in
  {| Info := info1; Message := Some m3;
     IsEphemeral := bool_decide (is_Some ephemeral);
     IsViewOnce := bool_decide (is_Some viewOnce);
     RawMessage := msg |}.

(** * Properties *)

(** ** Running a method *)

Section Running.

Context `{!Collaborators}.

Lemma bind_at {A B} (m : M A) (f : A → M B) (w : World) :
  (m ≫= f) w =
  match m w with
  | (Return a, w1, t1) => let '(r, w2, t2) := f a w1 in (r, w2, t1 ++ t2)
  | (Panic p, w1, t1) => (Panic p, w1, t1)
  end.
Proof. reflexivity. Qed.

Lemma ret_bind_at {A B} (a : A) (f : A → M B) (w : World) :
  (mret a ≫= f) w = f a w.
Proof. rewrite bind_at. simpl. by destruct (f a w) as [[r w2] t2]. Qed.

Lemma bind_ret_at {A} (m : M A) (w : World) : (m ≫= mret) w = m w.
Proof.
  rewrite bind_at. destruct (m w) as [[[a|p] w1] t1]; simpl; [|done].
  by rewrite app_nil_r.
Qed.

Lemma bind_assoc_at {A B C} (m : M A) (f : A → M B) (g : B → M C) (w : World) :
  ((m ≫= f) ≫= g) w = (m ≫= (λ a, f a ≫= g)) w.
Proof.
  rewrite !bind_at. destruct (m w) as [[[a|p] w1] t1]; [|done].
  rewrite bind_at. destruct (f a w1) as [[[b|p] w2] t2]; [|done].
  destruct (g b w2) as [[r w3] t3]. by rewrite app_assoc.
Qed.

Lemma bind_ext_at {A B} (m : M A) (f g : A → M B) (w : World) :
  (∀ a w1, f a w1 = g a w1) → (m ≫= f) w = (m ≫= g) w.
Proof.
  intros Hfg. rewrite !bind_at. destruct (m w) as [[[a|p] w1] t1]; [|done].
  by rewrite Hfg.
Qed.

Lemma perform_bind_at {B} (a : action) (k : M B) (w : World) :
  (perform a ;; k) w = let '(r, w1, t) := k w in (r, w1, a :: t).
Proof. reflexivity. Qed.

Lemma Log_Warnf_bind_at {B} format (k : M B) (w : World) :
  (Log_Warnf format ;; k) w =
  let '(r, w1, t) := k w in (r, w1, Log LevelWarn format :: t).
Proof. reflexivity. Qed.

Lemma Log_Debugf_bind_at {B} format (k : M B) (w : World) :
  (Log_Debugf format ;; k) w =
  let '(r, w1, t) := k w in (r, w1, Log LevelDebug format :: t).
Proof. reflexivity. Qed.

Lemma go_bind_at {B} (tsk : task) (k : M B) (w : World) :
  (go tsk ;; k) w = let '(r, w1, t) := k w in (r, w1, Go tsk :: t).
Proof. reflexivity. Qed.

Lemma dispatchEvent_bind_at {B} (evt : event) (k : M B) (w : World) :
  (dispatchEvent evt ;; k) w =
  let '(r, w1, t) := k w in (r, w1, DispatchEvent evt :: t).
Proof. reflexivity. Qed.

Lemma now_bind_at {B} (k : Time → M B) (w : World) :
  (now ≫= k) w = k (time_Now w) w.
Proof. rewrite bind_at. unfold now. by destruct (k (time_Now w) w) as [[r w1] t]. Qed.

Lemma emits_ret {A} P (a : A) : emits P (mret a).
Proof. intros w. constructor. Qed.

Lemma emits_lift {A} P (e : exec A) : emits P (lift e).
Proof. intros w. constructor. Qed.

Lemma emits_now P : emits P now.
Proof. intros w. constructor. Qed.

Lemma emits_perform P (a : action) : P a → emits P (perform a).
Proof. intros Ha w. by repeat constructor. Qed.

Lemma emits_invoke {A} P (c : call) (f : World → A * World) :
  P (Call c) → emits P (invoke c f).
Proof.
  intros Hc w. unfold invoke, trace. destruct (f w). by repeat constructor.
Qed.

Lemma emits_bind {A B} P (m : M A) (f : A → M B) :
  emits P m → (∀ a, emits P (f a)) → emits P (m ≫= f).
Proof.
  intros Hm Hf w. rewrite bind_at.
  specialize (Hm w). unfold trace in *.
  destruct (m w) as [[[a|p] w1] t1]; simpl in *; [|done].
  specialize (Hf a w1). destruct (f a w1) as [[r w2] t2]; simpl in *.
  by apply Forall_app.
Qed.

Lemma count_nil kind : count kind [] = 0.
Proof. reflexivity. Qed.

Lemma count_app kind (t1 t2 : list action) :
  count kind (t1 ++ t2) = count kind t1 + count kind t2.
Proof. unfold count. by rewrite filter_app, length_app. Qed.

Lemma count_cons kind a (t : list action) :
  count kind (a :: t) = (if kind a then 1 else 0) + count kind t.
Proof.
  unfold count. destruct (kind a) eqn:Ha.
  - by rewrite filter_cons_True.
  - rewrite filter_cons_False; [done|]. by rewrite Ha.
Qed.

Lemma count_zero kind (t : list action) :
  count kind t = 0 ↔ Forall (λ a, kind a = false) t.
Proof.
  induction t as [|a t IH]; [by split; [constructor|]|].
  rewrite count_cons, Forall_cons, <- IH.
  destruct (kind a); split; try lia; tauto.
Qed.

Lemma count_pos kind (t : list action) :
  0 < count kind t ↔ ∃ a, a ∈ t ∧ kind a = true.
Proof.
  induction t as [|a t IH].
  - rewrite count_nil. split; [lia|]. intros (a & Ha & _). by apply elem_of_nil in Ha.
  - rewrite count_cons. split.
    + destruct (kind a) eqn:Ka.
      * intros _. exists a. split; [left|done].
      * intros Hpos. apply IH in Hpos as (b & Hb & Kb). exists b. split; [by right|done].
    + intros (b & Hb & Kb). apply elem_of_cons in Hb as [->|Hb].
      * rewrite Kb. lia.
      * assert (0 < count kind t) by (apply IH; eauto). lia.
Qed.

End Running.
(** *** Facts about the codec *)

Section PaddingCodec.

Implicit Types (plaintext x : bytes) (b n : byte).

Lemma bytes_Repeat_singleton b count :
  bytes_Repeat [b] count = replicate count b.
Proof.
  unfold bytes_Repeat. induction count as [|k IH]; simpl; [done|].
  by rewrite IH.
Qed.

Lemma bytes_HasSuffix_spec (s suffix : bytes) :
  bytes_HasSuffix s suffix = true ↔ ∃ front, s = front ++ suffix.
Proof.
  unfold bytes_HasSuffix. rewrite andb_true_iff, Nat.leb_le, bool_decide_eq_true.
  split.
  - intros [Hlen Hdrop]. exists (take (length s - length suffix) s).
    symmetry. etrans; [|apply (take_drop (length s - length suffix))].
    by rewrite Hdrop.
  - intros [front ->]. rewrite length_app. split; [lia|].
    replace (length front + length suffix - length suffix) with (length front) by lia.
    by rewrite drop_app_length.
Qed.

Lemma index_last x b : index (x ++ [b]) (len (x ++ [b]) - 1) = Return b.
Proof.
  unfold index, len. rewrite length_app. simpl.
  replace (Z.of_nat (length x + 1) - 1)%Z with (Z.of_nat (length x)) by lia.
  destruct (Z.leb_spec 0 (Z.of_nat (length x))); [|lia].
  rewrite Nat2Z.id, lookup_app_r by lia.
  by rewrite Nat.sub_diag.
Qed.

Lemma index_nil (i : Z) : index (@nil byte) i = Panic (IndexOutOfRange i 0).
Proof. unfold index. by destruct (0 <=? i)%Z. Qed.

Lemma slice_to_in_range x (k : nat) :
  k ≤ length x →
  slice_to x (len x - Z.of_nat k) = Return (take (length x - k) x).
Proof.
  intros Hk. unfold slice_to, len.
  destruct (Z.leb_spec 0 (Z.of_nat (length x) - Z.of_nat k)); [|lia].
  destruct (Z.leb_spec (Z.of_nat (length x) - Z.of_nat k) (Z.of_nat (length x))); [|lia].
  simpl. do 2 f_equal. lia.
Qed.

(** On a non-empty buffer the padding check is exactly the suffix test
    against [n] copies of the last byte [n]. *)
Lemma isValidPadding_snoc x n :
  isValidPadding (x ++ [n]) =
  Return (bytes_HasSuffix (x ++ [n]) (replicate (int_of_byte n) n)).
Proof.
  unfold isValidPadding. rewrite index_last. simpl.
  by rewrite bytes_Repeat_singleton.
Qed.

(** What [unpadMessage] computes on a non-empty buffer. *)
Lemma unpadMessage_snoc x n :
  unpadMessage (x ++ [n]) =
  if bytes_HasSuffix (x ++ [n]) (replicate (int_of_byte n) n)
  then Return (Ok (take (length (x ++ [n]) - int_of_byte n) (x ++ [n])))
  else Return (Err (Errorf "plaintext doesn't have expected padding")).
Proof.
  unfold unpadMessage, checkPadding. rewrite isValidPadding_snoc. simpl.
  destruct (bytes_HasSuffix _ _) eqn:Hsuf; simpl; [|done].
  rewrite index_last. simpl.
  apply bytes_HasSuffix_spec in Hsuf as [front Hfront].
  rewrite slice_to_in_range; [done|].
  rewrite Hfront, length_app, length_replicate. lia.
Qed.

Lemma unpadMessage_nil : unpadMessage [] = Panic (IndexOutOfRange (-1) 0).
Proof. reflexivity. Qed.

(** [unpadMessage] panics on the empty buffer and on no other. *)
Lemma unpadMessage_panics_iff plaintext :
  panics (unpadMessage plaintext) ↔ plaintext = [].
Proof.
  split.
  - intros [p Hp]. destruct plaintext as [|b l] using rev_ind; [done|].
    rewrite unpadMessage_snoc in Hp. by destruct (bytes_HasSuffix _ _).
  - intros ->. by eexists.
Qed.

(** The suffix test with [n] copies of [n], in the words of the
    specification: the buffer has at least [n] bytes and each of its
    final [n] bytes equals [n]. *)
Lemma padding_suffix_spec plaintext n :
  bytes_HasSuffix plaintext (replicate (int_of_byte n) n) = true ↔
  int_of_byte n ≤ length plaintext ∧
  Forall (λ b, b = n) (drop (length plaintext - int_of_byte n) plaintext).
Proof.
  unfold bytes_HasSuffix.
  rewrite andb_true_iff, Nat.leb_le, bool_decide_eq_true, length_replicate.
  split; intros [Hlen Htail]; (split; [done|]).
  - rewrite Htail. by apply Forall_replicate.
  - symmetry. apply replicate_as_Forall. split.
    + rewrite length_drop. lia.
    + eapply Forall_impl; [exact Htail|]. by intros b ->.
Qed.

(** The pad length drawn by [padMessage] lies in [1,15]. *)
Lemma pad_length_range (r : byte) :
  let pad0 := byte_and r x0f in
  let pad0 := if decide (pad0 = x00) then x0f else pad0 in
  1 ≤ int_of_byte pad0 ≤ 15.
Proof. destruct r; vm_compute; lia. Qed.

Lemma padMessage_ok (r : byte) x :
  ∃ n : byte, 1 ≤ int_of_byte n ≤ 15 ∧
    padMessage (Ok r) x = Return (x ++ replicate (int_of_byte n) n).
Proof.
  pose proof (pad_length_range r) as Hr. simpl in Hr.
  eexists. split; [exact Hr|].
  unfold padMessage. by rewrite bytes_Repeat_singleton.
Qed.

Lemma unpadMessage_padded x n :
  1 ≤ int_of_byte n →
  unpadMessage (x ++ replicate (int_of_byte n) n) = Return (Ok x).
Proof.
  intros Hn. destruct (int_of_byte n) as [|k] eqn:Hk; [lia|].
  rewrite replicate_S_end, app_assoc, unpadMessage_snoc, Hk.
  rewrite <- app_assoc, <- replicate_S_end.
  assert (bytes_HasSuffix (x ++ replicate (S k) n) (replicate (S k) n) = true) as ->
    by (apply bytes_HasSuffix_spec; eauto).
  rewrite length_app, length_replicate.
  replace (length x + S k - S k) with (length x) by lia.
  by rewrite take_app_length.
Qed.

End PaddingCodec.

(** *** The codec's laws *)

(** C3. Round trip: whatever byte [crypto/rand] delivers, [padMessage]
    appends [n] copies of the byte [n] for some [n] in [1,15], and
    [unpadMessage] gives the plaintext back.  This holds for every
    plaintext, the non-empty ones in particular. *)
Theorem unpad_pad_roundtrip (r : byte) (x : bytes) :
  ∃ n : byte, 1 ≤ int_of_byte n ≤ 15 ∧
    padMessage (Ok r) x = Return (x ++ replicate (int_of_byte n) n) ∧
    (padMessage (Ok r) x ≫= unpadMessage) = Return (Ok x).
Proof.
  destruct (padMessage_ok r x) as (n & Hn & Hpad).
  exists n. repeat split; [lia|lia|done|].
  rewrite Hpad. simpl. apply unpadMessage_padded. lia.
Qed.

(** C4. A buffer whose last byte is zero passes the padding check, since
    zero copies of a byte are a suffix of every buffer: [unpadMessage]
    returns the buffer whole.  The specification wants n = 0 refused. *)
Theorem unpadMessage_accepts_zero_padding (x : bytes) :
  isValidPadding (x ++ [x00]) = Return true ∧
  unpadMessage (x ++ [x00]) = Return (Ok (x ++ [x00])).
Proof.
  assert (bytes_HasSuffix (x ++ [x00]) (replicate (int_of_byte x00) x00) = true) as Hsuf.
  { apply bytes_HasSuffix_spec. exists (x ++ [x00]). by rewrite app_nil_r. }
  split.
  - by rewrite isValidPadding_snoc, Hsuf.
  - rewrite unpadMessage_snoc, Hsuf. simpl.
    by rewrite Nat.sub_0_r, firstn_all.
Qed.

(** For a last byte [n] other than zero, [unpadMessage] does what the
    specification says: it succeeds exactly when the final [n] bytes all
    equal [n], and then strips them. *)
Lemma unpadMessage_nonzero_padding (x : bytes) (n : byte) :
  1 ≤ int_of_byte n →
  let plaintext := x ++ [n] in
  (int_of_byte n ≤ length plaintext ∧
   Forall (λ b, b = n) (drop (length plaintext - int_of_byte n) plaintext) →
   unpadMessage plaintext =
     Return (Ok (take (length plaintext - int_of_byte n) plaintext))) ∧
  (¬ (int_of_byte n ≤ length plaintext ∧
      Forall (λ b, b = n) (drop (length plaintext - int_of_byte n) plaintext)) →
   unpadMessage plaintext =
     Return (Err (Errorf "plaintext doesn't have expected padding"))).
Proof.
  intros Hn plaintext. subst plaintext. rewrite unpadMessage_snoc.
  destruct (bytes_HasSuffix _ _) eqn:Hsuf.
  - split; [done|]. intros Hno. destruct Hno. by apply padding_suffix_spec.
  - split; [|done]. intros Hyes. apply padding_suffix_spec in Hyes. congruence.
Qed.

(** C8. On the empty buffer [unpadMessage] reads [plaintext[-1]] and
    panics with an index out of range; it returns neither a plaintext nor
    an error. *)
Theorem unpadMessage_empty_panics :
  isValidPadding [] = Panic (IndexOutOfRange (-1) 0) ∧
  unpadMessage [] = Panic (IndexOutOfRange (-1) 0) ∧
  ¬ returns (unpadMessage []).
Proof.
  repeat split. intros [a Ha]. discriminate Ha.
Qed.

(** ** Message source resolver *)

(** C6. A node from a group or a broadcast list resolves to a group
    source whose chat is [from].  Without a [participant] that is a JID
    the resolution fails; with one, the participant is the sender, and
    the message is from me exactly when the sender's user is the user of
    the local account. *)
Theorem parseMessageSource_group `{!Collaborators}
    (cli : Client) (node : Node) (from me : JID) :
  attr_JID node "from" = Some from →
  Server from = GroupServer ∨ Server from = BroadcastServer →
  Store_ID cli = Some me →
  ∃ source err,
    parseMessageSource cli node = Return (source, err) ∧
    IsGroup source = true ∧
    Chat source = from ∧
    (Attrs node !! "participant" = None → attr_JID node "participant" = None) ∧
    match attr_JID node "participant" with
    | None =>
        err = Some (Errorf "didn't find valid `participant` attribute in group message")
    | Some participant =>
        err = None ∧
        Sender source = participant ∧
        (IsFromMe source = true ↔ User participant = User me)
    end.
Proof.
  intros Hfrom Hserver Hme. unfold parseMessageSource. rewrite Hfrom.
  assert (bool_decide (Server from = GroupServer)
          || bool_decide (Server from = BroadcastServer) = true) as ->.
  { apply orb_true_iff. rewrite !bool_decide_eq_true. exact Hserver. }
  assert (Attrs node !! "participant" = None → attr_JID node "participant" = None)
    as Hmissing by (unfold attr_JID; by intros ->).
  destruct (attr_JID node "participant") as [participant|]; rewrite ?Hme; simpl.
  - destruct (bool_decide_reflect (User participant = User me)) as [Huser|Huser]; simpl;
      destruct (bool_decide (Server from = BroadcastServer)); simpl;
      destruct (attr_JID node "recipient"); simpl;
      eexists _, _; (split; [reflexivity|]); simpl; repeat split; try done.
  - destruct (bool_decide (Server from = BroadcastServer)); simpl;
      destruct (attr_JID node "recipient"); simpl;
      eexists _, _; (split; [reflexivity|]); simpl; repeat split; done.
Qed.

(** The example of the specification: a message in the group 123@g.us
    sent by 456@s.whatsapp.net, read by the account of user 456. *)
Lemma parseMessageSource_group_witness :
  let group := {| User := "123"; Device := 0; Server := "g.us" |} in
  let sender := {| User := "456"; Device := 0; Server := "s.whatsapp.net" |} in
  let node := {| Tag := "message";
                 Attrs := {[ "from" := AttrJID group; "participant" := AttrJID sender ]};
                 Content := ContentNil |} in
  ∃ source err,
    @parseMessageSource Toy.collaborators (mkClient (Some sender)) node = Return (source, err) ∧
    IsGroup source = true ∧
    Chat source = group ∧
    (Attrs node !! "participant" = None → attr_JID node "participant" = None) ∧
    match attr_JID node "participant" with
    | None =>
        err = Some (Errorf "didn't find valid `participant` attribute in group message")
    | Some participant =>
        err = None ∧
        Sender source = participant ∧
        (IsFromMe source = true ↔ User participant = User sender)
    end.
Proof.
  intros group sender node.
  apply (@parseMessageSource_group Toy.collaborators (mkClient (Some sender)) node group sender).
  - reflexivity.
  - left. reflexivity.
  - reflexivity.
Defined.

(** ** Unwrapper of decrypted messages *)

Section Unwrapper.

Context `{!Collaborators}.

(** The sender key distribution handler returns in every world and
    performs only a call to [Process] and a log line. *)
Lemma handleSenderKeyDistributionMessage_returns chat from rawSKDMsg w :
  ∃ w1 t, handleSenderKeyDistributionMessage chat from rawSKDMsg w = (Return tt, w1, t) ∧
    Forall (λ a, match a with Log _ _ | Call (CallProcess _ _) => True | _ => False end) t.
Proof.
  unfold handleSenderKeyDistributionMessage.
  destruct (NewSenderKeyDistributionMessageFromBytes _).
  - eexists _, _. split; [reflexivity|]. by repeat constructor.
  - eexists _, _. split; [reflexivity|]. by repeat constructor.
Qed.

(** [handleDecryptedMessage] always returns, and what it performs ends
    with the one [Message] event it dispatches; before that there are
    only a log line or a call to [Process], and the start of the
    protocol message task.  The device-sent meta of the event is read
    with the getters applied to [msg] after it has been rebound to the
    inner message (lines 335-339). *)
Lemma handleDecryptedMessage_run info msg w :
  ∃ w1 t evt,
    handleDecryptedMessage info msg w = (Return tt, w1, t ++ [DispatchEvent (EvMessage evt)]) ∧
    RawMessage evt = msg ∧
    Info evt =
      match waProto.GetMessage_DeviceSent (waProto.GetDeviceSentMessage msg) with
      | Some inner =>
          set_DeviceSentMeta
            (Some {| DestinationJID :=
                       waProto.GetDestinationJid (waProto.GetDeviceSentMessage inner);
                     Phash := waProto.GetPhash (waProto.GetDeviceSentMessage inner) |})
            info
      | None => info
      end ∧
    Forall (λ a, match a with
                 | Log _ _ | Call (CallProcess _ _) | Go (handleProtocolMessage _ _) => True
                 | _ => False
                 end) t.
Proof.
  unfold handleDecryptedMessage.
  destruct (waProto.GetMessage_DeviceSent _) as [inner|];
    [set (m1 := inner)|set (m1 := msg)]; clearbody m1.
  all: cbv beta iota zeta.
  all: match goal with
       | |- context [(?stage1 ≫= ?rest) ?w0] =>
           assert (∃ w1 t1, stage1 w = (Return tt, w1, t1) ∧
                     Forall (λ a, match a with
                                  | Log _ _ | Call (CallProcess _ _)
                                  | Go (handleProtocolMessage _ _) => True
                                  | _ => False
                                  end) t1) as (w1 & t1 & Hrun1 & Ht1);
           [ destruct (waProto.GetSenderKeyDistributionMessage m1) as [skdm|];
             [ destruct (negb (IsGroup info));
               [ eexists _, _; split; [reflexivity|]; by repeat constructor
               | destruct (handleSenderKeyDistributionMessage_returns
                             (Chat info) (Sender info) skdm w) as (w1 & t1 & -> & Ht1);
                 eexists _, _; split; [reflexivity|];
                 eapply Forall_impl; [exact Ht1|]; by intros [ | | |[]] ]
             | eexists _, _; split; [reflexivity|]; constructor ]
           | rewrite bind_at, Hrun1 ]
       end.
  all: match goal with
       | |- context [(?stage2 ≫= ?rest) ?w0] =>
           assert (∃ t2, stage2 w1 = (Return tt, w1, t2) ∧
                     Forall (λ a, match a with
                                  | Log _ _ | Call (CallProcess _ _)
                                  | Go (handleProtocolMessage _ _) => True
                                  | _ => False
                                  end) t2) as (t2 & Hrun2 & Ht2);
           [ destruct (waProto.GetProtocolMessage m1);
             eexists; (split; [reflexivity|]); by repeat constructor
           | rewrite bind_at, Hrun2 ]
       end.
  all: destruct (waProto.GetMessage_FutureProof (waProto.GetEphemeralMessage m1)) as [m2|].
  all: match goal with
       | |- context [waProto.GetViewOnceMessage ?m] =>
           destruct (waProto.GetMessage_FutureProof (waProto.GetViewOnceMessage m))
       end.
  all: cbn [dispatchEvent perform].
  all: exists w1, (t1 ++ t2); eexists; rewrite <- app_assoc.
  all: (split; [reflexivity|]); split; [reflexivity|].
  all: split; [reflexivity|by apply Forall_app].
Qed.

End Unwrapper.

(** C5. On a device-sent wrapper (destination 123@s.whatsapp.net, phash
    2:abcdefgh) around an ephemeral wrapper around a text body, the one
    event dispatched is ephemeral, carries the innermost body and has its
    device-sent meta set, but the destination and the phash in it are
    empty: they are not the wrapper's. *)
Theorem handleDecryptedMessage_device_sent_meta_empty `{!Collaborators}
    (info : MessageInfo) (w : World) :
  handleDecryptedMessage info device_sent_example w =
    (Return tt, w,
     [DispatchEvent (EvMessage
        {| Info := set_DeviceSentMeta
                     (Some {| DestinationJID := ""; Phash := "" |}) info;
           Message := Some (waProto.text "hello");
           IsEphemeral := true;
           IsViewOnce := false;
           RawMessage := device_sent_example |})]).
Proof. reflexivity. Qed.

(** ** Pairwise and group decryptors *)

Section Decryptors.

Context `{!Collaborators}.

Lemma quiet_counts (t : list action) :
  Forall quiet t →
  count is_undecryptable t = 0 ∧ count is_message_event t = 0 ∧
  count is_retry_receipt t = 0 ∧ count is_message_receipt t = 0.
Proof.
  intros Ht. repeat split; apply count_zero; (eapply Forall_impl; [exact Ht|]).
  all: by intros [ |[]| | ].
Qed.

Lemma decryptDM_quiet child from isPreKey : emits quiet (decryptDM child from isPreKey).
Proof.
  unfold decryptDM. destruct isPreKey.
  - destruct (NewPreKeySignalMessageFromBytes _) as [preKeyMsg|err]; [|apply emits_ret].
    apply emits_bind; [by apply emits_invoke|]. intros r.
    apply emits_bind.
    + destruct (errors_Is _ _); [|apply emits_ret].
      repeat (apply emits_bind; [|intros ?]);
        repeat match goal with |- emits _ (if ?c is Some _ then _ else _) => destruct c end;
        first [ by apply emits_perform | by apply emits_invoke
              | apply emits_ret | apply emits_now ].
    + intros [plaintext|err]; [apply emits_lift|apply emits_ret].
  - destruct (NewSignalMessageFromBytes _) as [msg|err]; [|apply emits_ret].
    apply emits_bind; [by apply emits_invoke|].
    intros [plaintext|err]; [apply emits_lift|apply emits_ret].
Qed.

Lemma decryptGroupMsg_quiet child from chat : emits quiet (decryptGroupMsg child from chat).
Proof.
  unfold decryptGroupMsg.
  destruct (NewSenderKeyMessageFromBytes _) as [msg|err]; [|apply emits_ret].
  apply emits_bind; [by apply emits_invoke|].
  intros [plaintext|err]; [apply emits_lift|apply emits_ret].
Qed.

(** What the pairwise decryptor does with a standard message. *)
Lemma decryptDM_standard child from w :
  decryptDM child from false w =
  match NewSignalMessageFromBytes (content_bytes child) with
  | Err err => (Return (Err (Wrapf "failed to parse normal message: %w" err)), w, [])
  | Ok msg =>
      let '(r, w1) := Cipher_Decrypt (JID_SignalAddress from) msg w in
      (match r with
       | Err err => Return (Err (Wrapf "failed to decrypt normal message: %w" err))
       | Ok plaintext => unpadMessage plaintext
       end, w1, [Call (CallDecrypt (JID_SignalAddress from) msg)])
  end.
Proof.
  unfold decryptDM. destruct (NewSignalMessageFromBytes _) as [msg|err]; [|done].
  rewrite bind_at. unfold Decrypt, invoke.
  destruct (Cipher_Decrypt _ _ _) as [[plaintext|err] w1]; [|done].
  unfold lift. by destruct (unpadMessage plaintext).
Qed.

End Decryptors.

(** C1. A pre-key message whose first decryption fails: if the failure is
    an untrusted identity, the decryptor deletes the identity and the
    session of the sender, logging a failed deletion and going on,
    dispatches one implicit identity change and decrypts a second and
    last time; the failure of that attempt is returned as a decryption
    error.  Any other first failure is returned as a decryption error at
    once.  A standard message is decrypted at most once, nothing is
    deleted and no identity change is dispatched. *)
Theorem decryptDM_untrusted_identity_retry `{!Collaborators}
    (child : Node) (from : JID) (w : World) :
  let address := JID_SignalAddress from in
  let name := SignalAddress_String address in
  (∀ preKeyMsg e w1,
     NewPreKeySignalMessageFromBytes (content_bytes child) = Ok preKeyMsg →
     Cipher_DecryptMessageReturnKey address preKeyMsg w = (Err e, w1) →
     if chain_has e ErrUntrustedIdentity
     then
       let '(err1, w2) := Identities_DeleteIdentity name w1 in
       let '(err2, w3) := Sessions_DeleteSession name w2 in
       let '(retry, w4) := Cipher_DecryptMessageReturnKey address preKeyMsg w3 in
       let t :=
         [Call (CallDecryptMessageReturnKey address preKeyMsg);
          Log LevelWarn "Got %v error while trying to decrypt prekey message from %s, clearing stored identity and retrying";
          Call (CallDeleteIdentity name)] ++
         (if err1 is Some _
          then [Log LevelWarn "Failed to delete identity of %s from store after decryption error: %v"]
          else []) ++
         [Call (CallDeleteSession name)] ++
         (if err2 is Some _
          then [Log LevelWarn "Failed to delete session with %s from store after decryption error: %v"]
          else []) ++
         [DispatchEvent (EvIdentityChange from (time_Now w3) true);
          Call (CallDecryptMessageReturnKey address preKeyMsg)] in
       decryptDM child from true w =
         (match retry with
          | Err e2 => Return (Err (Wrapf "failed to decrypt prekey message: %w" e2))
          | Ok plaintext => unpadMessage plaintext
          end, w4, t) ∧
       count is_identity_change t = 1 ∧
       count is_delete_call t = 2 ∧
       count is_decrypt_call t = 2
     else
       decryptDM child from true w =
         (Return (Err (Wrapf "failed to decrypt prekey message: %w" e)), w1,
          [Call (CallDecryptMessageReturnKey address preKeyMsg)])) ∧
  (∀ r w' t,
     decryptDM child from false w = (r, w', t) →
     count is_decrypt_call t ≤ 1 ∧
     count is_delete_call t = 0 ∧
     count is_identity_change t = 0).
Proof.
  intros address name. split.
  - intros preKeyMsg e w1 Hparse Hfirst.
    assert (DecryptMessageReturnKey address preKeyMsg w =
            (Return (Err e), w1, [Call (CallDecryptMessageReturnKey address preKeyMsg)]))
      as Hrun1 by (unfold DecryptMessageReturnKey, invoke; by rewrite Hfirst).
    unfold decryptDM. rewrite Hparse. fold address. rewrite bind_at, Hrun1.
    rewrite bind_at. cbn [err_of errors_Is].
    destruct (chain_has e ErrUntrustedIdentity); [|done].
    fold name.
    destruct (Identities_DeleteIdentity name w1) as [err1 w2] eqn:Hdel1.
    destruct (Sessions_DeleteSession name w2) as [err2 w3] eqn:Hdel2.
    destruct (Cipher_DecryptMessageReturnKey address preKeyMsg w3) as [retry w4] eqn:Hretry.
    assert (DeleteIdentity name w1 = (Return err1, w2, [Call (CallDeleteIdentity name)]))
      as Hrun2 by (unfold DeleteIdentity, invoke; by rewrite Hdel1).
    assert (DeleteSession name w2 = (Return err2, w3, [Call (CallDeleteSession name)]))
      as Hrun3 by (unfold DeleteSession, invoke; by rewrite Hdel2).
    assert (DecryptMessageReturnKey address preKeyMsg w3 =
            (Return retry, w4, [Call (CallDecryptMessageReturnKey address preKeyMsg)]))
      as Hrun4 by (unfold DecryptMessageReturnKey, invoke; by rewrite Hretry).
    assert (∀ (err : option error) (format : string) w0,
              (if err is Some _ then Log_Warnf format else mret ()) w0 =
              (Return tt, w0, if err is Some _ then [Log LevelWarn format] else [])) as Hlog
      by (by intros [?|] ? ?).
    split.
    + rewrite Log_Warnf_bind_at.
      rewrite bind_at, Hrun2, bind_at, Hlog, bind_at, Hrun3, bind_at, Hlog.
      rewrite now_bind_at, dispatchEvent_bind_at, Hrun4.
      destruct retry as [plaintext|e2]; simpl.
      * unfold lift. destruct (unpadMessage plaintext); simpl;
          by rewrite ?app_nil_r, <- ?app_assoc.
      * by rewrite ?app_nil_r, <- ?app_assoc.
    + destruct err1, err2; by repeat split.
  - intros r w' t. rewrite decryptDM_standard.
    destruct (NewSignalMessageFromBytes _) as [msg|err].
    + destruct (Cipher_Decrypt _ _ _) as [res w1]. intros [= <- <- <-].
      cbv [count filter list_filter length decide_rel is_decrypt_call]. simpl.
      repeat split; lia.
    + intros [= <- <- <-]. repeat split. rewrite count_nil. lia.
Qed.

(** The engine of [Toy] holds a stale identity of the peer: the first
    attempt is refused, the identity is deleted and the second attempt
    gives the plaintext, here one byte and one byte of padding. *)
Lemma decryptDM_untrusted_identity_retry_witness :
  @decryptDM Toy.collaborators (Toy.enc "pkmsg" [x68; x01]) Toy.peer true
    (Toy.mkWorld true 42) =
  (Return (Ok [x68]), Toy.mkWorld false 42,
   [Call (CallDecryptMessageReturnKey ("123" : @SignalAddress Toy.collaborators)
                                      ([x68; x01] : @PreKeySignalMessage Toy.collaborators));
    Log LevelWarn "Got %v error while trying to decrypt prekey message from %s, clearing stored identity and retrying";
    Call (CallDeleteIdentity "123");
    Call (CallDeleteSession "123");
    DispatchEvent (EvIdentityChange Toy.peer 42%Z true);
    Call (CallDecryptMessageReturnKey ("123" : @SignalAddress Toy.collaborators)
                                      ([x68; x01] : @PreKeySignalMessage Toy.collaborators))]).
Proof.
  destruct (@decryptDM_untrusted_identity_retry Toy.collaborators
              (Toy.enc "pkmsg" [x68; x01]) Toy.peer (Toy.mkWorld true 42)) as [Hprekey _].
  pose proof (Hprekey [x68; x01] (Sentinel ErrUntrustedIdentity) (Toy.mkWorld true 42)
                eq_refl eq_refl) as Hretry.
  simpl in Hretry. exact (proj1 Hretry).
Defined.

(** ** Decryption dispatcher *)

Section Dispatcher.

Context `{!Collaborators}.

Implicit Types (info : MessageInfo) (node child : Node) (children : list Node).

(** One turn of the loop, by the routing of the child. *)
Lemma decryptLoop_cons info node child rest handled :
  decryptLoop info node (child :: rest) handled =
  match route info child with
  | Skipped => decryptLoop info node rest handled
  | Unhandled =>
      Log_Warnf "Unhandled encrypted message (type %s) from %s";;
      decryptLoop info node rest handled
  | Routed decrypt =>
      r ← decrypt;
      after_decrypt info node (decryptLoop info node rest) handled r
  end.
Proof.
  unfold route. simpl.
  destruct (negb (bool_decide (Tag child = "enc"))); [done|].
  destruct (attr_string child "type") as [encType|]; [|done].
  destruct (bool_decide (encType = "pkmsg") || bool_decide (encType = "msg")); [done|].
  by destruct (IsGroup info && bool_decide (encType = "skmsg")).
Qed.

Lemma route_Routed_enc info child decrypt :
  route info child = Routed decrypt → Tag child = "enc".
Proof.
  unfold route. destruct (bool_decide_reflect (Tag child = "enc")); [done|].
  simpl. discriminate.
Qed.

Lemma route_Routed_quiet info child decrypt :
  route info child = Routed decrypt → emits quiet decrypt.
Proof.
  unfold route. destruct (negb (bool_decide (Tag child = "enc"))); [done|].
  destruct (attr_string child "type") as [encType|]; [|done].
  destruct (bool_decide (encType = "pkmsg") || bool_decide (encType = "msg")).
  - intros [= <-]. apply decryptDM_quiet.
  - destruct (IsGroup info && bool_decide (encType = "skmsg")); [|done].
    intros [= <-]. apply decryptGroupMsg_quiet.
Qed.

Lemma after_decrypt_resume info node pre rest handled r w :
  (∀ h w1, decryptLoop info node (pre ++ rest) h w1 =
           (decryptLoop info node pre h ≫= resume info node rest) w1) →
  after_decrypt info node (decryptLoop info node (pre ++ rest)) handled r w =
  (after_decrypt info node (decryptLoop info node pre) handled r
     ≫= resume info node rest) w.
Proof.
  intros IH. destruct r as [decrypted|err]; simpl.
  - destruct (proto_Unmarshal decrypted) as [msg|err].
    + rewrite bind_assoc_at. apply bind_ext_at. intros _ w1. apply IH.
    + rewrite bind_assoc_at. apply bind_ext_at. intros _ w1. apply IH.
  - reflexivity.
Qed.

Lemma decryptLoop_app info node pre rest handled w :
  decryptLoop info node (pre ++ rest) handled w =
  (decryptLoop info node pre handled ≫= resume info node rest) w.
Proof.
  revert handled w. induction pre as [|child pre IH]; intros handled w.
  - simpl app.
    change (decryptLoop info node [] handled) with (mret (LoopEnd handled) : M loop_exit).
    by rewrite ret_bind_at.
  - rewrite <- app_comm_cons, !decryptLoop_cons.
    destruct (route info child) as [| |decrypt].
    + apply IH.
    + rewrite bind_assoc_at. apply bind_ext_at. intros _ w1. apply IH.
    + rewrite bind_assoc_at. apply bind_ext_at. intros r w1.
      by apply after_decrypt_resume.
Qed.

(** The loop over a prefix that ends normally, followed by the rest. *)
Lemma decryptLoop_app_end info node pre rest handled h w w1 t1 :
  decryptLoop info node pre handled w = (Return (LoopEnd h), w1, t1) →
  decryptLoop info node (pre ++ rest) handled w =
  let '(r, w2, t2) := decryptLoop info node rest h w1 in (r, w2, t1 ++ t2).
Proof. intros Hpre. by rewrite decryptLoop_app, bind_at, Hpre. Qed.

(** The child whose routed decryption fails ends the loop. *)
Lemma decryptLoop_failure info node child rest handled decrypt err w w1 t1 :
  route info child = Routed decrypt →
  decrypt w = (Return (Err err), w1, t1) →
  decryptLoop info node (child :: rest) handled w =
  (Return LoopReturn, w1,
   t1 ++ [Log LevelWarn "Error decrypting message from %s: %v";
          Go (sendRetryReceipt node false);
          DispatchEvent (EvUndecryptableMessage info false)]).
Proof.
  intros Hroute Hdecrypt. by rewrite decryptLoop_cons, Hroute, bind_at, Hdecrypt.
Qed.

(** What can be seen of a run of the loop: it sends no message receipt;
    left by [return], it has dispatched one undecryptable event and
    started one retry receipt; run to its end, it has done neither, and
    the flag is set exactly when it was set before or a message event
    was dispatched. *)
Lemma decryptLoop_observed info node children handled w :
  let '(r, _, t) := decryptLoop info node children handled w in
  count is_message_receipt t = 0 ∧
  match r with
  | Return LoopReturn =>
      count is_undecryptable t = 1 ∧ count is_retry_receipt t = 1
  | Return (LoopEnd h) =>
      count is_undecryptable t = 0 ∧ count is_retry_receipt t = 0 ∧
      (h = true ↔ handled = true ∨ 0 < count is_message_event t)
  | Panic _ =>
      count is_undecryptable t = 0 ∧ count is_retry_receipt t = 0
  end.
Proof.
  revert handled w. induction children as [|child rest IH]; intros handled w.
  - simpl. rewrite !count_nil. repeat split; [tauto|]. intros [?|?]; [done|lia].
  - rewrite decryptLoop_cons.
    destruct (route info child) as [| |decrypt] eqn:Hroute.
    + apply IH.
    + rewrite Log_Warnf_bind_at. specialize (IH handled w).
      destruct (decryptLoop info node rest handled w) as [[r w1] t].
      rewrite !count_cons. simpl. exact IH.
    + rewrite bind_at.
      pose proof (route_Routed_quiet _ _ _ Hroute w) as Hquiet. unfold trace in Hquiet.
      destruct (decrypt w) as [[[r|p] w1] t1]; simpl in Hquiet;
        apply quiet_counts in Hquiet as (Hu & Hm & Hr & Hs); [|done].
      destruct r as [decrypted|err]; simpl.
      * destruct (proto_Unmarshal decrypted) as [msg|err].
        -- rewrite bind_at.
           destruct (handleDecryptedMessage_run info msg w1)
             as (w2 & t2 & evt & -> & _ & _ & Ht2).
           specialize (IH true w2).
           destruct (decryptLoop info node rest true w2) as [[r w3] t3].
           assert (count is_undecryptable t2 = 0 ∧ count is_retry_receipt t2 = 0 ∧
                   count is_message_receipt t2 = 0) as (Hu2 & Hr2 & Hs2).
           { repeat split; apply count_zero; (eapply Forall_impl; [exact Ht2|]).
             all: by intros [[]| | |]. }
           rewrite !count_app, !count_cons, !count_nil. simpl.
           rewrite Hu, Hm, Hr, Hs, Hu2, Hr2, Hs2. simpl.
           destruct IH as [IHs IH]. split; [lia|].
           destruct r as [[|h]|p]; [lia|split; [lia|split; [lia|]]|lia].
           destruct IH as (_ & _ & ->). split; intros _; [right; lia|by left].
        -- rewrite Log_Warnf_bind_at. specialize (IH handled w1).
           destruct (decryptLoop info node rest handled w1) as [[r w2] t2].
           rewrite !count_app, !count_cons. simpl.
           rewrite Hu, Hm, Hr, Hs. simpl. exact IH.
      * rewrite !count_app, !count_cons, !count_nil. simpl.
        rewrite Hu, Hr, Hs. lia.
Qed.

End Dispatcher.

Section DispatcherRuns.

Context `{!Collaborators}.

Implicit Types (info : MessageInfo) (node child : Node) (children : list Node).

(** The test of line 116 holds exactly when every child is tagged
    "unavailable". *)
Lemma all_unavailable_iff node :
  length (GetChildrenByTag node "unavailable") = length (GetChildren node) ↔
  Forall (λ child, Tag child = "unavailable") (GetChildren node).
Proof.
  unfold GetChildrenByTag. split.
  - intros Hlen. apply Forall_forall. intros child Hin.
    destruct (decide (Tag child = "unavailable")) as [|Hne]; [done|].
    pose proof (length_filter_lt (λ c, Tag c = "unavailable") _ _ Hin Hne). lia.
  - intros Hall. f_equal. induction Hall as [|child rest Htag _ IH]; [done|].
    by rewrite filter_cons_True, IH.
Qed.

(** The run of the dispatcher when the test of line 116 holds. *)
Lemma decryptMessages_unavailable_run info node w :
  length (GetChildrenByTag node "unavailable") = length (GetChildren node) →
  decryptMessages info node w =
  (Return tt, w,
   [Go (sendAck node);
    Log LevelWarn "Unavailable message %s from %s";
    Go (sendRetryReceipt node true);
    DispatchEvent (EvUndecryptableMessage info true)]).
Proof.
  intros Hlen. unfold decryptMessages.
  by rewrite go_bind_at, bool_decide_eq_true_2.
Qed.

(** The run of the dispatcher when it fails: what the loop did on the
    children before the failing one, the failed decryption, and then
    the retry receipt and the undecryptable event. *)
Lemma decryptMessages_failure_run info node pre child post handled decrypt err
    w w1 t1 w2 t2 :
  GetChildren node = pre ++ child :: post →
  decryptLoop info node pre false w = (Return (LoopEnd handled), w1, t1) →
  route info child = Routed decrypt →
  decrypt w1 = (Return (Err err), w2, t2) →
  decryptMessages info node w =
  (Return tt, w2,
   [Go (sendAck node); Log LevelDebug "Decrypting %d messages from %s"] ++
   t1 ++ t2 ++
   [Log LevelWarn "Error decrypting message from %s: %v";
    Go (sendRetryReceipt node false);
    DispatchEvent (EvUndecryptableMessage info false)]).
Proof.
  intros Hchildren Hpre Hroute Hdecrypt. unfold decryptMessages.
  rewrite go_bind_at, bool_decide_eq_false_2.
  - rewrite Log_Debugf_bind_at, bind_at, Hchildren.
    rewrite (decryptLoop_app_end _ _ _ _ _ _ _ _ _ Hpre).
    rewrite (decryptLoop_failure _ _ _ _ _ _ _ _ _ _ Hroute Hdecrypt).
    simpl. by rewrite app_nil_r.
  - rewrite all_unavailable_iff, Hchildren, Forall_app, Forall_cons.
    intros (_ & Htag & _).
    apply route_Routed_enc in Hroute. congruence.
Qed.

End DispatcherRuns.

(** C7. When every child of the node is tagged "unavailable", the
    dispatcher starts the acknowledgement, logs, starts one retry
    receipt with the unavailable flag, dispatches one undecryptable
    event with [IsUnavailable] set, and returns: the world is untouched
    and no decryption is called. *)
Theorem decryptMessages_all_unavailable `{!Collaborators}
    (info : MessageInfo) (node : Node) (w : World) :
  Forall (λ child, Tag child = "unavailable") (GetChildren node) →
  let t := [Go (sendAck node);
            Log LevelWarn "Unavailable message %s from %s";
            Go (sendRetryReceipt node true);
            DispatchEvent (EvUndecryptableMessage info true)] in
  decryptMessages info node w = (Return tt, w, t) ∧
  count is_undecryptable t = 1 ∧
  count is_retry_receipt t = 1 ∧
  count is_decrypt_call t = 0 ∧
  count is_message_event t = 0.
Proof.
  intros Hall t. split; [|done].
  apply decryptMessages_unavailable_run. by apply all_unavailable_iff.
Qed.

Lemma decryptMessages_all_unavailable_witness :
  let node := Toy.message [Toy.unavailable; Toy.unavailable] in
  @decryptMessages Toy.collaborators Toy.info node (Toy.mkWorld false 7) =
  (Return tt, Toy.mkWorld false 7,
   [Go (sendAck node);
    Log LevelWarn "Unavailable message %s from %s";
    Go (sendRetryReceipt node true);
    DispatchEvent (EvUndecryptableMessage Toy.info true)]).
Proof.
  intros node.
  apply (@decryptMessages_all_unavailable Toy.collaborators Toy.info node (Toy.mkWorld false 7)).
  repeat constructor.
Defined.

(** C9. A node without children passes the test of line 116 as well:
    the dispatcher dispatches the undecryptable event with
    [IsUnavailable] set and starts the retry receipt with the unavailable
    flag, and calls no decryption. *)
Theorem decryptMessages_no_children `{!Collaborators}
    (info : MessageInfo) (node : Node) (w : World) :
  GetChildren node = [] →
  let t := [Go (sendAck node);
            Log LevelWarn "Unavailable message %s from %s";
            Go (sendRetryReceipt node true);
            DispatchEvent (EvUndecryptableMessage info true)] in
  decryptMessages info node w = (Return tt, w, t) ∧
  count is_decrypt_call t = 0.
Proof.
  intros Hnone t. split; [|done].
  apply decryptMessages_unavailable_run.
  unfold GetChildrenByTag. by rewrite Hnone.
Qed.

Lemma decryptMessages_no_children_witness :
  let node := {| Tag := "message"; Attrs := ∅; Content := ContentBytes [x68] |} in
  @decryptMessages Toy.collaborators Toy.info node (Toy.mkWorld false 7) =
  (Return tt, Toy.mkWorld false 7,
   [Go (sendAck node);
    Log LevelWarn "Unavailable message %s from %s";
    Go (sendRetryReceipt node true);
    DispatchEvent (EvUndecryptableMessage Toy.info true)]).
Proof.
  intros node.
  apply (@decryptMessages_no_children Toy.collaborators Toy.info node (Toy.mkWorld false 7)).
  reflexivity.
Defined.

(** C2. The first child whose routed decryption fails: after what the
    loop did for the children before it, which stays done, the
    dispatcher logs, starts a retry receipt without the unavailable flag,
    dispatches an undecryptable event with [IsUnavailable] unset and
    returns in the world the failed decryption left.  The run holds one
    undecryptable event and one retry receipt, and nothing of the
    children after the failing one. *)
Theorem decryptMessages_first_failure_aborts `{!Collaborators}
    (info : MessageInfo) (node : Node) (pre : list Node) (child : Node)
    (post : list Node) (handled : bool) (decrypt : M (result bytes)) (err : error)
    (w w1 w2 : World) (t1 t2 : list action) :
  GetChildren node = pre ++ child :: post →
  decryptLoop info node pre false w = (Return (LoopEnd handled), w1, t1) →
  route info child = Routed decrypt →
  decrypt w1 = (Return (Err err), w2, t2) →
  let t := [Go (sendAck node); Log LevelDebug "Decrypting %d messages from %s"] ++
           t1 ++ t2 ++
           [Log LevelWarn "Error decrypting message from %s: %v";
            Go (sendRetryReceipt node false);
            DispatchEvent (EvUndecryptableMessage info false)] in
  decryptMessages info node w = (Return tt, w2, t) ∧
  count is_undecryptable t = 1 ∧
  count is_retry_receipt t = 1 ∧
  count is_message_event t = count is_message_event t1 ∧
  count is_decrypt_call t = count is_decrypt_call t1 + count is_decrypt_call t2.
Proof.
  intros Hchildren Hpre Hroute Hdecrypt t. split.
  - by eapply decryptMessages_failure_run.
  - pose proof (decryptLoop_observed info node pre false w) as Hobs.
    rewrite Hpre in Hobs. destruct Hobs as (_ & Hu1 & Hr1 & _).
    pose proof (route_Routed_quiet _ _ _ Hroute w1) as Hquiet.
    rewrite Hdecrypt in Hquiet. unfold trace in Hquiet. simpl in Hquiet.
    apply quiet_counts in Hquiet as (Hu2 & Hm2 & Hr2 & _).
    subst t. rewrite !count_app, !count_cons, !count_nil. simpl.
    rewrite Hu1, Hr1, Hu2, Hm2, Hr2. lia.
Qed.

(** Three encrypted children: the first decrypts to the text "h", the
    second fails to decrypt, the third is never looked at. *)
Lemma decryptMessages_first_failure_aborts_witness :
  let good := Toy.enc "msg" [x68; x01] in
  let bad := Toy.enc "msg" [x00] in
  let node := Toy.message [good; bad; Toy.enc "msg" [x69; x01]] in
  let w := Toy.mkWorld false 7 in
  @decryptMessages Toy.collaborators Toy.info node w =
  (Return tt, w,
   [Go (sendAck node);
    Log LevelDebug "Decrypting %d messages from %s";
    Call (CallDecrypt ("123" : @SignalAddress Toy.collaborators)
                      ([x68; x01] : @SignalMessage Toy.collaborators));
    Toy.text_event "h";
    Call (CallDecrypt ("123" : @SignalAddress Toy.collaborators)
                      ([x00] : @SignalMessage Toy.collaborators));
    Log LevelWarn "Error decrypting message from %s: %v";
    Go (sendRetryReceipt node false);
    DispatchEvent (EvUndecryptableMessage Toy.info false)]).
Proof.
  intros good bad node w.
  exact (proj1 (@decryptMessages_first_failure_aborts Toy.collaborators
    Toy.info node [good] bad [Toy.enc "msg" [x69; x01]] true
    (decryptDM bad Toy.peer false)
    (Wrapf "failed to decrypt normal message: %w" (Errorf "bad mac"))
    w w w
    [Call (CallDecrypt ("123" : @SignalAddress Toy.collaborators)
                       ([x68; x01] : @SignalMessage Toy.collaborators));
     Toy.text_event "h"]
    [Call (CallDecrypt ("123" : @SignalAddress Toy.collaborators)
                       ([x00] : @SignalMessage Toy.collaborators))]
    eq_refl eq_refl eq_refl eq_refl)).
Defined.

(** C10. The message receipt is started exactly when the loop over the
    children runs to its end with at least one element handled: then it
    is started once, as the last thing the dispatcher does, and otherwise
    not at all.  Seen from outside, that is exactly when the dispatcher
    returns having dispatched some message event and no undecryptable
    event.  In particular no receipt is started when a decryption fails,
    whatever the loop had handled before. *)
Theorem decryptMessages_receipt_iff_clean_completion `{!Collaborators}
    (info : MessageInfo) (node : Node) (w : World) :
  let run := decryptMessages info node w in
  let completes :=
    ¬ Forall (λ child, Tag child = "unavailable") (GetChildren node) ∧
    outcome (decryptLoop info node (GetChildren node) false w) = Return (LoopEnd true) in
  (completes →
   outcome run = Return tt ∧
   count is_message_receipt (trace run) = 1 ∧
   last (trace run) = Some (Go (sendMessageReceipt info))) ∧
  (¬ completes → count is_message_receipt (trace run) = 0) ∧
  (completes ↔
   outcome run = Return tt ∧
   count is_undecryptable (trace run) = 0 ∧
   0 < count is_message_event (trace run)) ∧
  (∀ pre child post handled decrypt err w1 t1 w2 t2,
     GetChildren node = pre ++ child :: post →
     decryptLoop info node pre false w = (Return (LoopEnd handled), w1, t1) →
     route info child = Routed decrypt →
     decrypt w1 = (Return (Err err), w2, t2) →
     count is_message_receipt (trace run) = 0 ∧
     count is_message_event (trace run) = count is_message_event t1).
Proof.
  intros run completes.
  assert ((completes →
           outcome run = Return tt ∧
           count is_message_receipt (trace run) = 1 ∧
           last (trace run) = Some (Go (sendMessageReceipt info))) ∧
          (¬ completes → count is_message_receipt (trace run) = 0) ∧
          (completes ↔
           outcome run = Return tt ∧
           count is_undecryptable (trace run) = 0 ∧
           0 < count is_message_event (trace run))) as (Hyes & Hno & Hiff).
  { subst run completes. unfold decryptMessages. rewrite go_bind_at.
    destruct (bool_decide_reflect
                (length (GetChildrenByTag node "unavailable") = length (GetChildren node)))
      as [Hall|Hnot]; rewrite all_unavailable_iff in *.
    - unfold outcome, trace. simpl. split; [|split; [|split]].
      + by intros [Hsome _].
      + done.
      + by intros [Hsome _].
      + intros (_ & Hu & _). vm_compute in Hu. lia.
    - rewrite Log_Debugf_bind_at, bind_at.
      pose proof (decryptLoop_observed info node (GetChildren node) false w) as Hobs.
      destruct (decryptLoop info node (GetChildren node) false w) as [[[exit|p] w1] t1];
        [destruct exit as [|[|]]|]; unfold outcome, trace; simpl;
        destruct Hobs as (Hs & Hobs);
        rewrite ?app_nil_r, ?count_cons, ?count_app, ?count_cons, ?count_nil; simpl;
        (split; [|split; [|split]]).
      + by intros [_ [=]].
      + intros _. lia.
      + by intros [_ [=]].
      + destruct Hobs as (Hu & Hr). intros (_ & Hu' & _). lia.
      + intros _. split; [done|]. split; [lia|]. by rewrite app_comm_cons, last_snoc.
      + intros Hnc. by destruct Hnc.
      + destruct Hobs as (Hu & Hr & [Hh _]). intros _. split; [done|]. split; [lia|].
        destruct (Hh eq_refl) as [?|?]; [done|lia].
      + done.
      + by intros [_ [=]].
      + intros _. lia.
      + by intros [_ [=]].
      + destruct Hobs as (Hu & Hr & [_ Hh]). intros (_ & _ & Hm).
        assert (false = true); [|done]. apply Hh. right. lia.
      + by intros [_ [=]].
      + intros _. lia.
      + by intros [_ [=]].
      + by intros ([=] & _). }
  split; [exact Hyes|]. split; [exact Hno|]. split; [exact Hiff|].
  intros pre child post handled decrypt err w1 t1 w2 t2 Hchildren Hpre Hroute Hdecrypt.
  subst run. erewrite decryptMessages_failure_run by eassumption.
  pose proof (decryptLoop_observed info node pre false w) as Hobs.
  rewrite Hpre in Hobs. destruct Hobs as (Hs1 & _).
  pose proof (route_Routed_quiet _ _ _ Hroute w1) as Hquiet.
  rewrite Hdecrypt in Hquiet. unfold trace in Hquiet. simpl in Hquiet.
  apply quiet_counts in Hquiet as (_ & Hm2 & _ & Hs2).
  unfold trace. simpl. rewrite !count_cons, !count_app, !count_cons, !count_nil. simpl.
  lia.
Qed.

(** Two runs of the small engine: both children decrypt, and the receipt
    is started at the end; the second child fails after the first was
    handled, and no receipt is started. *)
Lemma decryptMessages_receipt_iff_clean_completion_witness :
  let good := Toy.enc "msg" [x68; x01] in
  let bad := Toy.enc "msg" [x00] in
  let w := Toy.mkWorld false 7 in
  let clean := @decryptMessages Toy.collaborators Toy.info (Toy.message [good; good]) w in
  let failed := @decryptMessages Toy.collaborators Toy.info (Toy.message [good; bad]) w in
  (outcome clean = Return tt ∧
   count is_message_receipt (trace clean) = 1 ∧
   last (trace clean) = Some (Go (sendMessageReceipt Toy.info))) ∧
  (count is_message_receipt (trace failed) = 0 ∧
   count is_message_event (trace failed) = 1).
Proof.
  intros good bad w clean failed. split.
  - destruct (@decryptMessages_receipt_iff_clean_completion Toy.collaborators
                Toy.info (Toy.message [good; good]) w) as (Hclean & _).
    apply Hclean. split.
    + intros Hall. apply Forall_cons in Hall as [Htag _]. discriminate Htag.
    + reflexivity.
  - destruct (@decryptMessages_receipt_iff_clean_completion Toy.collaborators
                Toy.info (Toy.message [good; bad]) w) as (_ & _ & _ & Hfailed).
    exact (Hfailed [good] bad [] true (decryptDM bad Toy.peer false)
             (Wrapf "failed to decrypt normal message: %w" (Errorf "bad mac"))
             w [Call (CallDecrypt ("123" : @SignalAddress Toy.collaborators)
                                  ([x68; x01] : @SignalMessage Toy.collaborators));
                Toy.text_event "h"]
             w [Call (CallDecrypt ("123" : @SignalAddress Toy.collaborators)
                                  ([x00] : @SignalMessage Toy.collaborators))]
             eq_refl eq_refl eq_refl eq_refl).
Defined.

(** * Further properties *)

(** ** Padding codec *)

(** X1. Whatever [unpadMessage] returns is the buffer without its
    padding: the buffer is the result followed by [n] copies of its last
    byte [n]. *)
Theorem unpadMessage_strips_padding (plaintext stripped : bytes) :
  unpadMessage plaintext = Return (Ok stripped) →
  ∃ n : byte,
    last plaintext = Some n ∧
    plaintext = stripped ++ replicate (int_of_byte n) n ∧
    length stripped = length plaintext - int_of_byte n.
Proof.
  destruct plaintext as [|n x _] using rev_ind; [done|].
  rewrite unpadMessage_snoc.
  destruct (bytes_HasSuffix _ _) eqn:Hsuf; [|done].
  intros [= <-]. exists n. rewrite last_snoc. split; [done|].
  apply bytes_HasSuffix_spec in Hsuf as [front Hfront].
  assert (take (length (x ++ [n]) - int_of_byte n) (x ++ [n]) = front) as ->.
  { rewrite Hfront, length_app, length_replicate.
    replace (length front + int_of_byte n - int_of_byte n) with (length front) by lia.
    by rewrite take_app_length. }
  split; [done|]. rewrite Hfront, length_app, length_replicate. lia.
Qed.

Lemma unpadMessage_strips_padding_witness :
  ∃ n : byte,
    last [x68; x69; x02; x02] = Some n ∧
    [x68; x69; x02; x02] = [x68; x69] ++ replicate (int_of_byte n) n ∧
    length [x68; x69] = length [x68; x69; x02; x02] - int_of_byte n.
Proof.
  apply (unpadMessage_strips_padding [x68; x69; x02; x02] [x68; x69]).
  reflexivity.
Defined.

(** X2. On a buffer whose last byte [n] is not zero, [unpadMessage]
    strips the final [n] bytes when the buffer has that many and each of
    them equals [n], and returns the padding error in every other case:
    when [n] exceeds the length, or when one of the final [n] bytes
    differs. *)
Theorem unpadMessage_checks_padding (x : bytes) (n : byte) :
  1 ≤ int_of_byte n →
  let plaintext := x ++ [n] in
  unpadMessage plaintext =
    if decide (int_of_byte n ≤ length plaintext ∧
               Forall (λ b, b = n) (drop (length plaintext - int_of_byte n) plaintext))
    then Return (Ok (take (length plaintext - int_of_byte n) plaintext))
    else Return (Err (Errorf "plaintext doesn't have expected padding")).
Proof.
  intros Hn plaintext.
  destruct (unpadMessage_nonzero_padding x n Hn) as [Hyes Hno].
  case_decide; [by apply Hyes|by apply Hno].
Qed.

(** "hi" followed by two bytes 2 is unpadded to "hi". *)
Lemma unpadMessage_checks_padding_witness :
  unpadMessage [x68; x69; x02; x02] = Return (Ok [x68; x69]).
Proof.
  assert (1 ≤ int_of_byte x02) as Hfrom by (vm_compute; lia).
  exact (unpadMessage_checks_padding [x68; x69; x02] x02 Hfrom).
Defined.

(** X3. [padMessage] panics exactly when [rand.Read] fails.  Otherwise
    it returns the plaintext followed by 1 to 15 bytes, and the result
    passes the padding check. *)
Theorem padMessage_outcome (rand_Read : result byte) (x : bytes) :
  match rand_Read with
  | Err err => padMessage rand_Read x = Panic (PanicError err)
  | Ok _ =>
      ∃ padded,
        padMessage rand_Read x = Return padded ∧
        length x + 1 ≤ length padded ≤ length x + 15 ∧
        take (length x) padded = x ∧
        isValidPadding padded = Return true
  end.
Proof.
  destruct rand_Read as [r|err]; [|done].
  destruct (padMessage_ok r x) as (n & Hn & Hpad).
  exists (x ++ replicate (int_of_byte n) n). split; [done|].
  rewrite length_app, length_replicate, take_app_length.
  split; [lia|]. split; [done|].
  destruct (int_of_byte n) as [|k] eqn:Hk; [lia|].
  rewrite replicate_S_end, app_assoc, isValidPadding_snoc, Hk.
  rewrite <- app_assoc, <- replicate_S_end. f_equal.
  apply bytes_HasSuffix_spec. eauto.
Qed.

(** ** Message source resolver and message info extractor *)

Section Resolver.

Context `{!Collaborators}.

(** The resolver case by case, for a client that is logged in. *)
Lemma parseMessageSource_cases (cli : Client) (node : Node) (me : JID) :
  Store_ID cli = Some me →
  parseMessageSource cli node =
  match attr_JID node "from" with
  | None =>
      Return (MessageSource_zero,
              Some (Errorf "didn't find valid `from` attribute in message"))
  | Some from =>
      if bool_decide (Server from = GroupServer) || bool_decide (Server from = BroadcastServer)
      then
        let owner :=
          if bool_decide (Server from = BroadcastServer)
          then default JID_zero (attr_JID node "recipient")
          else JID_zero in
        match attr_JID node "participant" with
        | None =>
            Return ({| Chat := from; Sender := JID_zero; IsFromMe := false;
                       IsGroup := true; BroadcastListOwner := owner |},
                    Some (Errorf "didn't find valid `participant` attribute in group message"))
        | Some sender =>
            Return ({| Chat := from; Sender := sender;
                       IsFromMe := bool_decide (User sender = User me);
                       IsGroup := true; BroadcastListOwner := owner |}, None)
        end
      else if bool_decide (User from = User me)
      then Return ({| Chat := default (JID_ToNonAD from) (attr_JID node "recipient");
                      Sender := from; IsFromMe := true; IsGroup := false;
                      BroadcastListOwner := JID_zero |}, None)
      else Return ({| Chat := JID_ToNonAD from; Sender := from; IsFromMe := false;
                      IsGroup := false; BroadcastListOwner := JID_zero |}, None)
  end.
Proof.
  intros Hme. unfold parseMessageSource. rewrite Hme.
  destruct (attr_JID node "from") as [from|]; [|done].
  destruct (bool_decide (Server from = GroupServer) || bool_decide (Server from = BroadcastServer)).
  - destruct (attr_JID node "participant") as [sender|]; simpl.
    + destruct (bool_decide (User sender = User me)); simpl;
        destruct (bool_decide (Server from = BroadcastServer)); simpl;
        by destruct (attr_JID node "recipient").
    + destruct (bool_decide (Server from = BroadcastServer)); simpl;
        by destruct (attr_JID node "recipient").
  - destruct (bool_decide (User from = User me)); [|done].
    by destruct (attr_JID node "recipient").
Qed.

Lemma parseMessageSource_returns (cli : Client) (node : Node) (me : JID) :
  Store_ID cli = Some me → returns (parseMessageSource cli node).
Proof.
  intros Hme. rewrite (parseMessageSource_cases cli node me Hme).
  destruct (attr_JID node "from") as [from|]; [|by eexists].
  destruct (_ || _).
  - destruct (attr_JID node "participant"); by eexists.
  - destruct (bool_decide _); by eexists.
Qed.

End Resolver.

(** X4. A message that is neither from a group nor from a broadcast
    list: the sender is [from] and the source is no group.  It is from
    me exactly when the user of [from] is the local user; then the chat
    is the [recipient] attribute, or [from] without its device when
    there is none.  For a message of somebody else the chat is [from]
    without its device, whatever [recipient] says. *)
Theorem parseMessageSource_direct `{!Collaborators}
    (cli : Client) (node : Node) (from me : JID) :
  attr_JID node "from" = Some from →
  Server from ≠ GroupServer →
  Server from ≠ BroadcastServer →
  Store_ID cli = Some me →
  ∃ source,
    parseMessageSource cli node = Return (source, None) ∧
    Sender source = from ∧
    IsGroup source = false ∧
    BroadcastListOwner source = JID_zero ∧
    (IsFromMe source = true ↔ User from = User me) ∧
    Chat source =
      if IsFromMe source
      then default (JID_ToNonAD from) (attr_JID node "recipient")
      else JID_ToNonAD from.
Proof.
  intros Hfrom Hgroup Hbroadcast Hme.
  rewrite (parseMessageSource_cases cli node me Hme), Hfrom.
  rewrite !bool_decide_eq_false_2 by done. simpl.
  destruct (bool_decide_reflect (User from = User me)) as [Huser|Huser];
    eexists; (split; [reflexivity|]); simpl; repeat split; done.
Qed.

(** The example of the specification: 123@s.whatsapp.net writes to the
    account of user 456, and a [recipient] attribute is ignored. *)
Lemma parseMessageSource_direct_witness :
  let node := {| Tag := "message";
                 Attrs := {[ "from" := AttrJID Toy.peer;
                             "recipient" := AttrJID ToyServices.me ]};
                 Content := ContentNil |} in
  ∃ source,
    @parseMessageSource Toy.collaborators ToyServices.cli node = Return (source, None) ∧
    Sender source = Toy.peer ∧
    IsGroup source = false ∧
    BroadcastListOwner source = JID_zero ∧
    (IsFromMe source = true ↔ User Toy.peer = User ToyServices.me) ∧
    Chat source =
      if IsFromMe source
      then default (@JID_ToNonAD Toy.collaborators Toy.peer) (attr_JID node "recipient")
      else @JID_ToNonAD Toy.collaborators Toy.peer.
Proof.
  intros node.
  apply (@parseMessageSource_direct Toy.collaborators ToyServices.cli node
           Toy.peer ToyServices.me); done.
Defined.

(** X5. What every source resolved without an error satisfies: it is a
    group source exactly when [from] is in the group or the broadcast
    domain, it is from me exactly when its sender has the local user,
    and it names a broadcast list owner only for a broadcast. *)
Theorem parseMessageSource_invariants `{!Collaborators}
    (cli : Client) (node : Node) (me : JID) (source : MessageSource) :
  Store_ID cli = Some me →
  parseMessageSource cli node = Return (source, None) →
  ∃ from,
    attr_JID node "from" = Some from ∧
    (IsGroup source = true ↔ Server from = GroupServer ∨ Server from = BroadcastServer) ∧
    (IsGroup source = true → Chat source = from) ∧
    (IsGroup source = false → Sender source = from) ∧
    (IsFromMe source = true ↔ User (Sender source) = User me) ∧
    (BroadcastListOwner source ≠ JID_zero → Server from = BroadcastServer).
Proof.
  intros Hme Hrun. rewrite (parseMessageSource_cases cli node me Hme) in Hrun.
  destruct (attr_JID node "from") as [from|]; [|done].
  exists from. split; [done|].
  destruct (bool_decide_reflect (Server from = GroupServer)) as [Hg|Hg];
    destruct (bool_decide_reflect (Server from = BroadcastServer)) as [Hb|Hb];
    simpl in Hrun.
  1-3: destruct (attr_JID node "participant") as [sender|]; [|done];
       injection Hrun as <-; simpl; rewrite bool_decide_eq_true;
       repeat split; auto; done.
  destruct (bool_decide_reflect (User from = User me)) as [Hu|Hu];
    injection Hrun as <-; simpl; repeat split; try done; intros [?|?]; done.
Qed.

Lemma parseMessageSource_invariants_witness :
  let group := {| User := "123"; Device := 0; Server := "g.us" |} in
  let node := {| Tag := "message";
                 Attrs := {[ "from" := AttrJID group;
                             "participant" := AttrJID ToyServices.me ]};
                 Content := ContentNil |} in
  let source := {| Chat := group; Sender := ToyServices.me; IsFromMe := true;
                   IsGroup := true; BroadcastListOwner := JID_zero |} in
  ∃ from,
    attr_JID node "from" = Some from ∧
    (IsGroup source = true ↔ Server from = GroupServer ∨ Server from = BroadcastServer) ∧
    (IsGroup source = true → Chat source = from) ∧
    (IsGroup source = false → Sender source = from) ∧
    (IsFromMe source = true ↔ User (Sender source) = User ToyServices.me) ∧
    (BroadcastListOwner source ≠ JID_zero → Server from = BroadcastServer).
Proof.
  intros group node source.
  apply (@parseMessageSource_invariants Toy.collaborators ToyServices.cli node
           ToyServices.me source); done.
Defined.

(** X6. A client that is logged in always gets an answer from the
    resolver, and the answer carries an error in two cases only: there is
    no [from] that is a JID, or [from] is a group or a broadcast list and
    there is no [participant] that is a JID. *)
Theorem parseMessageSource_error_iff `{!Collaborators}
    (cli : Client) (node : Node) (me : JID) :
  Store_ID cli = Some me →
  ∃ source err,
    parseMessageSource cli node = Return (source, err) ∧
    (is_Some err ↔
     attr_JID node "from" = None ∨
     ∃ from, attr_JID node "from" = Some from ∧
             (Server from = GroupServer ∨ Server from = BroadcastServer) ∧
             attr_JID node "participant" = None).
Proof.
  intros Hme. rewrite (parseMessageSource_cases cli node me Hme).
  destruct (attr_JID node "from") as [from|].
  - destruct (bool_decide_reflect (Server from = GroupServer)) as [Hg|Hg];
      destruct (bool_decide_reflect (Server from = BroadcastServer)) as [Hb|Hb]; simpl.
    1-3: destruct (attr_JID node "participant") as [sender|];
         eexists _, _; (split; [reflexivity|]); split;
         [ by intros [? [=]] | intros [[=]|(? & [= <-] & _ & [=])]
         | intros _; right; eauto | done ].
    destruct (bool_decide (User from = User me));
      eexists _, _; (split; [reflexivity|]); split;
      try (by intros [? [=]]); intros [[=]|(? & [= <-] & [?|?] & _)]; done.
  - eexists _, _. split; [reflexivity|]. split; [by left|done].
Qed.

Lemma parseMessageSource_error_iff_witness :
  let node := {| Tag := "message"; Attrs := {[ "from" := AttrString "123" ]};
                 Content := ContentNil |} in
  ∃ source err,
    @parseMessageSource Toy.collaborators ToyServices.cli node = Return (source, err) ∧
    (is_Some err ↔
     attr_JID node "from" = None ∨
     ∃ from, attr_JID node "from" = Some from ∧
             (Server from = GroupServer ∨ Server from = BroadcastServer) ∧
             attr_JID node "participant" = None).
Proof.
  intros node.
  apply (@parseMessageSource_error_iff Toy.collaborators ToyServices.cli node ToyServices.me).
  reflexivity.
Defined.



Section ParseInt.

Import strconv.

Lemma ParseUint_loop_ok (s : string) (n un : Z) :
  (0 ≤ n)%Z →
  ParseUint_loop s n = (un, None) →
  (0 ≤ un)%Z ∧ all_digits s = true.
Proof.
  revert n. induction s as [|c rest IH]; intros n Hn; simpl.
  - by intros [= <-].
  - assert (∀ d, digit c = Some d → (0 ≤ d)%Z) as Hpos.
    { unfold digit. intros d.
      destruct (Z.leb_spec 48 (Z.of_N (Ascii.N_of_ascii c))); simpl; [|done].
      destruct (Z.of_N (Ascii.N_of_ascii c) <=? 57)%Z; [|done].
      intros [= <-]. lia. }
    destruct (digit c) as [d|]; [|done]. specialize (Hpos d eq_refl).
    destruct (n >=? maxUint64 / 10 + 1)%Z; [done|].
    destruct (n * 10 + d >? maxUint64)%Z; [done|].
    intros Hrest. apply IH in Hrest; [|lia].
    destruct Hrest as [Hun Hall]. split; [done|].
    rewrite Hall, andb_true_r. apply bool_decide_eq_true. by eexists.
Qed.

Lemma ParseUint_loop_range (s : string) (n un : Z) (name : string) :
  ParseUint_loop s n = (un, Some name) →
  name = ErrRange → un = maxUint64.
Proof.
  revert n. induction s as [|c rest IH]; intros n; simpl; [done|].
  destruct (digit c) as [d|]; [|by intros [= <- <-]].
  destruct (n >=? maxUint64 / 10 + 1)%Z; [by intros [= <- <-]|].
  destruct (n * 10 + d >? maxUint64)%Z; [by intros [= <- <-]|].
  apply IH.
Qed.

(** What [ParseInt] accepts: an optional sign and at least one decimal
    digit, with a value that fits 64 bits. *)
Lemma ParseInt_ok (s : string) (n : Z) :
  ParseInt s = Ok n →
  (- 2 ^ 63 ≤ n < 2 ^ 63)%Z ∧
  ∃ sign digits,
    s = sign +:+ digits ∧ (sign = "" ∨ sign = "+" ∨ sign = "-") ∧
    digits ≠ "" ∧ all_digits digits = true.
Proof.
  destruct s as [|c rest]; [done|]. unfold ParseInt.
  assert (∀ (neg : bool) (digits : string),
            (let '(un, err) := ParseUint digits in
             match err with
             | Some name =>
                 if negb (String.eqb name ErrRange) then Err (NumError name)
                 else if negb neg && (un >=? 2 ^ 63)%Z then Err (NumError ErrRange)
                 else if neg && (un >? 2 ^ 63)%Z then Err (NumError ErrRange)
                 else Ok (if neg then - un else un)%Z
             | None =>
                 if negb neg && (un >=? 2 ^ 63)%Z then Err (NumError ErrRange)
                 else if neg && (un >? 2 ^ 63)%Z then Err (NumError ErrRange)
                 else Ok (if neg then - un else un)%Z
             end) = Ok n →
            (- 2 ^ 63 ≤ n < 2 ^ 63)%Z ∧ digits ≠ "" ∧ all_digits digits = true) as Hcore.
  { intros neg digits. unfold ParseUint.
    destruct digits as [|d more]; [done|].
    destruct (ParseUint_loop (String d more) 0) as [un [name|]] eqn:Hloop.
    - destruct (String.eqb_spec name ErrRange) as [Hname|Hname]; [|done]. simpl.
      apply ParseUint_loop_range in Hloop; [|done]. subst un.
      assert ((maxUint64 >=? 2 ^ 63)%Z = true) as Hge by reflexivity.
      assert ((maxUint64 >? 2 ^ 63)%Z = true) as Hgt by reflexivity.
      destruct neg; simpl; rewrite ?Hge, ?Hgt; done.
    - apply ParseUint_loop_ok in Hloop as [Hun Hall]; [|lia].
      destruct neg; simpl.
      + destruct (Z.gtb_spec un (2 ^ 63)); [done|]. intros [= <-]. split; [lia|done].
      + destruct (Z.geb_spec un (2 ^ 63)) as [Hge|Hlt]; [done|].
        intros [= <-]. split; [lia|done]. }
  destruct (Ascii.eqb_spec c (Ascii.ascii_of_byte x2b)) as [->|Hplus].
  { intros Hok. apply Hcore in Hok as (Hrange & Hne & Hall).
    split; [done|]. exists "+", rest. auto. }
  destruct (Ascii.eqb_spec c (Ascii.ascii_of_byte x2d)) as [->|Hminus].
  { intros Hok. apply Hcore in Hok as (Hrange & Hne & Hall).
    split; [done|]. exists "-", rest. auto. }
  intros Hok. apply Hcore in Hok as (Hrange & Hne & Hall).
  split; [done|]. exists "", (String c rest). auto.
Qed.

End ParseInt.

Section Effects.

Context `{!Collaborators} `{!Services}.

Lemma E_bind_at {A B} (m : E A) (f : A → E B) (w : World) :
  (m ≫= f) w =
  match m w with
  | (Return a, w1, t1) => let '(r, w2, t2) := f a w1 in (r, w2, t1 ++ t2)
  | (Panic p, w1, t1) => (Panic p, w1, t1)
  end.
Proof. reflexivity. Qed.

Lemma E_ret_bind_at {A B} (a : A) (f : A → E B) (w : World) :
  (mret a ≫= f) w = f a w.
Proof. rewrite E_bind_at. simpl. by destruct (f a w) as [[r w2] t2]. Qed.

Lemma effect_bind_at {B} (e : effect) (k : E B) (w : World) :
  (effect_of e ;; k) w = let '(r, w1, t) := k w in (r, w1, e :: t).
Proof. reflexivity. Qed.

Lemma tally_nil kind : tally kind [] = 0.
Proof. reflexivity. Qed.

Lemma tally_app kind (t1 t2 : list effect) :
  tally kind (t1 ++ t2) = tally kind t1 + tally kind t2.
Proof. unfold tally. by rewrite filter_app, length_app. Qed.

Lemma tally_cons kind e (t : list effect) :
  tally kind (e :: t) = (if kind e then 1 else 0) + tally kind t.
Proof.
  unfold tally. destruct (kind e) eqn:He.
  - by rewrite filter_cons_True.
  - rewrite filter_cons_False; [done|]. by rewrite He.
Qed.

End Effects.

(** X8. [parseMessageInfo] returns an info exactly when the source
    resolves without an error, [id] and [t] are strings and [t] is
    accepted by [ParseInt]; the info then holds the source, the id, the
    time of [t] seconds, and [notify] and [category] when they are
    strings, the empty string otherwise.  The device-sent meta is unset. *)
Theorem parseMessageInfo_ok_iff `{!Collaborators} `{!Services}
    (cli : Client) (node : Node) (info : MessageInfo) :
  parseMessageInfo cli node = Return (Ok info) ↔
  ∃ source id ts tsInt,
    parseMessageSource cli node = Return (source, None) ∧
    attr_string node "id" = Some id ∧
    attr_string node "t" = Some ts ∧
    strconv.ParseInt ts = Ok tsInt ∧
    info = {| Source := source; ID := id;
              PushName := default "" (attr_string node "notify");
              Timestamp := time_Unix tsInt 0;
              Category := default "" (attr_string node "category");
              DeviceSentMeta := None |}.
Proof.
  unfold parseMessageInfo.
  destruct (parseMessageSource cli node) as [[source [err|]]|p]; simpl.
  - split; [done|]. by intros (? & ? & ? & ? & [=] & _).
  - destruct (attr_string node "id") as [id|]; simpl.
    + destruct (attr_string node "t") as [ts|]; simpl.
      * destruct (strconv.ParseInt ts) as [tsInt|err] eqn:Hparse; simpl.
        -- split.
           ++ intros [= <-]. by exists source, id, ts, tsInt.
           ++ intros (? & ? & ? & ? & [= <-] & [= <-] & [= <-] & Hts & ->).
              rewrite Hparse in Hts. by injection Hts as <-.
        -- split; [done|].
           intros (? & ? & ? & ? & _ & _ & [= <-] & Hts & _). congruence.
      * split; [done|]. by intros (? & ? & ? & ? & _ & _ & [=] & _).
    + split; [done|]. by intros (? & ? & ? & ? & _ & [=] & _).
  - split; [done|]. by intros (? & ? & ? & ? & [=] & _).
Qed.

(** X9. The timestamp of an info comes from a [t] attribute that is an
    optional sign followed by at least one decimal digit and nothing
    else, and its seconds fit a signed 64 bit integer. *)
Theorem parseMessageInfo_timestamp `{!Collaborators} `{!Services}
    (cli : Client) (node : Node) (info : MessageInfo) :
  parseMessageInfo cli node = Return (Ok info) →
  ∃ ts tsInt sign digits,
    attr_string node "t" = Some ts ∧
    Timestamp info = time_Unix tsInt 0 ∧
    (- 2 ^ 63 ≤ tsInt < 2 ^ 63)%Z ∧
    ts = sign +:+ digits ∧ (sign = "" ∨ sign = "+" ∨ sign = "-") ∧
    digits ≠ "" ∧ all_digits digits = true.
Proof.
  unfold parseMessageInfo.
  destruct (parseMessageSource cli node) as [[source [err|]]|p]; simpl; [done| |done].
  destruct (attr_string node "id") as [id|]; simpl; [|done].
  destruct (attr_string node "t") as [ts|]; simpl; [|done].
  destruct (strconv.ParseInt ts) as [tsInt|err] eqn:Hparse; simpl; [|done].
  intros [= <-].
  apply ParseInt_ok in Hparse as (Hrange & sign & digits & Hts & Hsign & Hne & Hall).
  exists ts, tsInt, sign, digits. simpl. auto 10.
Qed.

Lemma parseMessageInfo_timestamp_witness :
  let node := {| Tag := "message";
                 Attrs := {[ "from" := AttrJID Toy.peer; "id" := AttrString "3EB0";
                             "t" := AttrString "1600000000" ]};
                 Content := ContentNil |} in
  ∃ ts tsInt sign digits,
    attr_string node "t" = Some ts ∧
    Timestamp Toy.info = @time_Unix _ ToyServices.services tsInt 0 ∧
    (- 2 ^ 63 ≤ tsInt < 2 ^ 63)%Z ∧
    ts = sign +:+ digits ∧ (sign = "" ∨ sign = "+" ∨ sign = "-") ∧
    digits ≠ "" ∧ all_digits digits = true.
Proof.
  intros node.
  apply (@parseMessageInfo_timestamp Toy.collaborators ToyServices.services
           ToyServices.cli node Toy.info).
  reflexivity.
Defined.

(** ** Entry point *)

Section EntryPoint.

Context `{!Collaborators} `{!Services}.

Lemma parseMessageInfo_returns (cli : Client) (node : Node) (me : JID) :
  Store_ID cli = Some me → returns (parseMessageInfo cli node).
Proof.
  intros Hme. unfold parseMessageInfo.
  destruct (parseMessageSource_returns cli node me Hme) as [[source err] ->].
  simpl. destruct err; [by eexists|].
  destruct (attr_string node "id"); [|by eexists].
  destruct (attr_string node "t"); [|by eexists].
  destruct (strconv.ParseInt _); by eexists.
Qed.

Lemma length_pos_iff (s : string) : (0 <? String.length s) = true ↔ s ≠ "".
Proof. destruct s; simpl; [by split|]. by split. Qed.

End EntryPoint.

(** X10. A node that does not parse, on a client that is logged in:
    [handleEncryptedMessage] logs one warning and does nothing else.  No
    acknowledgement is started, no retry receipt, no event, and the
    world stays as it is. *)
Theorem handleEncryptedMessage_malformed `{!Collaborators} `{!Services}
    (cli : Client) (node : Node) (me : JID) (w : World) :
  Store_ID cli = Some me →
  (∀ info, parseMessageInfo cli node ≠ Return (Ok info)) →
  handleEncryptedMessage cli node w =
    (Return tt, w, [Core (Log LevelWarn "Failed to parse message: %v")]).
Proof.
  intros Hme Hbad. unfold handleEncryptedMessage.
  destruct (parseMessageInfo_returns cli node me Hme) as [[info|err] Hrun].
  - by destruct (Hbad info).
  - rewrite E_bind_at. unfold pure_exec. by rewrite Hrun.
Qed.

(** A node without an [id]. *)
Lemma handleEncryptedMessage_malformed_witness :
  let node := {| Tag := "message";
                 Attrs := {[ "from" := AttrJID Toy.peer; "t" := AttrString "1600000000" ]};
                 Content := ContentNodes [Toy.enc "msg" [x68; x01]] |} in
  @handleEncryptedMessage Toy.collaborators ToyServices.services ToyServices.cli node
    (Toy.mkWorld false 7) =
  (Return tt, Toy.mkWorld false 7, [Core (Log LevelWarn "Failed to parse message: %v")]).
Proof.
  intros node.
  apply (@handleEncryptedMessage_malformed Toy.collaborators ToyServices.services
           ToyServices.cli node ToyServices.me (Toy.mkWorld false 7)).
  - reflexivity.
  - intros info. discriminate.
Defined.

(** X11. A node that parses: the push name task is started exactly when
    the push name is neither empty nor "-", and what follows is the run
    of [decryptMessages] on the parsed info, with its outcome and its
    world. *)
Theorem handleEncryptedMessage_parsed `{!Collaborators} `{!Services}
    (cli : Client) (node : Node) (info : MessageInfo) (w : World) :
  parseMessageInfo cli node = Return (Ok info) →
  handleEncryptedMessage cli node w =
    let '(r, w1, t) := decryptMessages info node w in
    (r, w1,
     (if bool_decide (PushName info ≠ "" ∧ PushName info ≠ "-")
      then [GoUpdatePushName (Sender info) info (PushName info)]
      else []) ++ (Core <$> t)).
Proof.
  intros Hinfo. unfold handleEncryptedMessage.
  rewrite E_bind_at. unfold pure_exec. rewrite Hinfo.
  assert ((0 <? String.length (PushName info)) && negb (bool_decide (PushName info = "-")) =
          bool_decide (PushName info ≠ "" ∧ PushName info ≠ "-")) as ->.
  { apply eq_true_iff_eq.
    rewrite andb_true_iff, negb_true_iff, length_pos_iff, bool_decide_eq_true,
      bool_decide_eq_false. done. }
  rewrite E_bind_at. unfold core.
  destruct (bool_decide (PushName info ≠ "" ∧ PushName info ≠ "-")); simpl;
    by destruct (decryptMessages info node w) as [[r w1] t].
Qed.

Lemma handleEncryptedMessage_parsed_witness :
  let node := {| Tag := "message";
                 Attrs := {[ "from" := AttrJID Toy.peer; "id" := AttrString "3EB0";
                             "t" := AttrString "1600000000";
                             "notify" := AttrString "Bob" ]};
                 Content := ContentNodes [Toy.unavailable] |} in
  let info := {| Source := Toy.info; ID := "3EB0"; PushName := "Bob";
                 Timestamp := 1600000000%Z; Category := ""; DeviceSentMeta := None |} in
  @handleEncryptedMessage Toy.collaborators ToyServices.services ToyServices.cli node
    (Toy.mkWorld false 7) =
  (Return tt, Toy.mkWorld false 7,
   [GoUpdatePushName Toy.peer info "Bob";
    Core (Go (sendAck node));
    Core (Log LevelWarn "Unavailable message %s from %s");
    Core (Go (sendRetryReceipt node true));
    Core (DispatchEvent (EvUndecryptableMessage info true))]).
Proof.
  intros node info.
  exact (@handleEncryptedMessage_parsed Toy.collaborators ToyServices.services
           ToyServices.cli node info (Toy.mkWorld false 7) eq_refl).
Defined.

(** ** Decryption dispatcher, further *)

Section DispatcherActions.

Context `{!Collaborators}.

Implicit Types (info : MessageInfo) (node child : Node) (children : list Node).

Lemma decryptDM_loop_action info node child isPreKey :
  emits (loop_action info node) (decryptDM child (Sender info) isPreKey).
Proof.
  unfold decryptDM. destruct isPreKey.
  - destruct (NewPreKeySignalMessageFromBytes _) as [preKeyMsg|err]; [|apply emits_ret].
    apply emits_bind; [by apply emits_invoke|]. intros r.
    apply emits_bind.
    + destruct (errors_Is _ _); [|apply emits_ret].
      repeat (apply emits_bind; [|intros ?]);
        repeat match goal with |- emits _ (if ?c is Some _ then _ else _) => destruct c end;
        first [ by apply emits_perform | by apply emits_invoke
              | apply emits_ret | apply emits_now ].
    + intros [plaintext|err]; [apply emits_lift|apply emits_ret].
  - destruct (NewSignalMessageFromBytes _) as [msg|err]; [|apply emits_ret].
    apply emits_bind; [by apply emits_invoke|].
    intros [plaintext|err]; [apply emits_lift|apply emits_ret].
Qed.

Lemma decryptGroupMsg_loop_action info node child :
  IsGroup info = true →
  emits (loop_action info node) (decryptGroupMsg child (Sender info) (Chat info)).
Proof.
  intros Hgroup. unfold decryptGroupMsg.
  destruct (NewSenderKeyMessageFromBytes _) as [msg|err]; [|apply emits_ret].
  apply emits_bind; [by apply emits_invoke|].
  intros [plaintext|err]; [apply emits_lift|apply emits_ret].
Qed.

Lemma handleDecryptedMessage_loop_action info node msg :
  emits (loop_action info node) (handleDecryptedMessage info msg).
Proof.
  unfold handleDecryptedMessage.
  destruct (waProto.GetMessage_DeviceSent _) as [inner|];
    [set (m1 := inner)|set (m1 := msg)]; clearbody m1.
  all: cbv beta iota zeta.
  all: apply emits_bind; [|intros _; apply emits_bind; [|intros _]].
  all: try (destruct (waProto.GetSenderKeyDistributionMessage m1) as [skdm|];
            [|apply emits_ret];
            destruct (IsGroup info) eqn:Hgroup; simpl;
            [|by apply emits_perform];
            unfold handleSenderKeyDistributionMessage;
            destruct (NewSenderKeyDistributionMessageFromBytes _);
            [|by apply emits_perform];
            apply emits_bind; [by apply emits_invoke|intros _; by apply emits_perform]).
  all: try (destruct (waProto.GetProtocolMessage m1);
            [by apply emits_perform|apply emits_ret]).
  all: destruct (waProto.GetMessage_FutureProof (waProto.GetEphemeralMessage m1)) as [m2|].
  all: match goal with
       | |- context [waProto.GetViewOnceMessage ?m] =>
           destruct (waProto.GetMessage_FutureProof (waProto.GetViewOnceMessage m))
       end.
  all: by apply emits_perform.
Qed.

Lemma route_Routed_loop_action info node child decrypt :
  route info child = Routed decrypt → emits (loop_action info node) decrypt.
Proof.
  unfold route. destruct (negb (bool_decide (Tag child = "enc"))); [done|].
  destruct (attr_string child "type") as [encType|]; [|done].
  destruct (bool_decide (encType = "pkmsg") || bool_decide (encType = "msg")).
  - intros [= <-]. apply decryptDM_loop_action.
  - destruct (IsGroup info) eqn:Hgroup; simpl; [|done].
    destruct (bool_decide (encType = "skmsg")); [|done].
    intros [= <-]. by apply decryptGroupMsg_loop_action.
Qed.

(** Everything the loop does is a [loop_action]. *)
Lemma decryptLoop_loop_action info node children handled :
  emits (loop_action info node) (decryptLoop info node children handled).
Proof.
  revert handled. induction children as [|child rest IH]; intros handled.
  - apply emits_ret.
  - rewrite decryptLoop_cons.
    destruct (route info child) as [| |decrypt] eqn:Hroute.
    + apply IH.
    + apply emits_bind; [by apply emits_perform|]. intros _. apply IH.
    + apply emits_bind; [by eapply route_Routed_loop_action|].
      intros [decrypted|err]; simpl.
      * destruct (proto_Unmarshal decrypted) as [msg|err].
        -- apply emits_bind; [apply handleDecryptedMessage_loop_action|]. intros _. apply IH.
        -- apply emits_bind; [by apply emits_perform|]. intros _. apply IH.
      * repeat (apply emits_bind; [by apply emits_perform|intros _]). apply emits_ret.
Qed.

(** The dispatcher's run after the acknowledgement. *)
Lemma decryptMessages_tail info node w :
  ∃ t, trace (decryptMessages info node w) = Go (sendAck node) :: t ∧
       Forall (λ a, loop_action info node a ∨
                    a = Go (sendRetryReceipt node true) ∨
                    a = DispatchEvent (EvUndecryptableMessage info true) ∨
                    a = Go (sendMessageReceipt info)) t.
Proof.
  unfold decryptMessages. rewrite go_bind_at.
  destruct (bool_decide _).
  - eexists. split; [reflexivity|].
    constructor; [by left|]. constructor; [by right; left|].
    constructor; [by right; right; left|]. constructor.
  - rewrite Log_Debugf_bind_at, bind_at.
    pose proof (decryptLoop_loop_action info node (GetChildren node) false w) as Hloop.
    unfold trace in *.
    destruct (decryptLoop info node (GetChildren node) false w) as [[[exit|p] w1] t1];
      simpl in Hloop.
    + assert (Forall (λ a, loop_action info node a ∨
                    a = Go (sendRetryReceipt node true) ∨
                    a = DispatchEvent (EvUndecryptableMessage info true) ∨
                    a = Go (sendMessageReceipt info)) t1) as Hloop'
        by (eapply Forall_impl; [exact Hloop|]; auto).
      destruct exit as [|[|]]; simpl; eexists; (split; [reflexivity|]).
      all: constructor; [by left|].
      all: apply Forall_app; split; [done|].
      all: first [ apply Forall_nil
                 | constructor; [by right; right; right|apply Forall_nil] ].
      all: exact I.
    + simpl. eexists. split; [reflexivity|]. constructor; [by left|].
      eapply Forall_impl; [exact Hloop|]; auto.
Qed.

(** The number of message events of a loop is at most the number of
    children tagged "enc". *)
Lemma decryptLoop_message_events info node children handled w :
  count is_message_event (trace (decryptLoop info node children handled w)) ≤
  length (filter (λ child, Tag child = "enc") children).
Proof.
  revert handled w. induction children as [|child rest IH]; intros handled w.
  - simpl. unfold trace. simpl. by rewrite count_nil.
  - assert (length (filter (λ c, Tag c = "enc") rest) ≤
            length (filter (λ c, Tag c = "enc") (child :: rest))) as Hmono.
    { destruct (decide (Tag child = "enc")).
      - rewrite filter_cons_True by done. simpl. lia.
      - by rewrite filter_cons_False. }
    rewrite decryptLoop_cons.
    destruct (route info child) as [| |decrypt] eqn:Hroute.
    + specialize (IH handled w). lia.
    + rewrite Log_Warnf_bind_at. specialize (IH handled w). unfold trace in *.
      destruct (decryptLoop info node rest handled w) as [[r w1] t].
      simpl in *. rewrite count_cons. simpl. lia.
    + rewrite filter_cons_True by (by eapply route_Routed_enc). simpl length.
      rewrite bind_at.
      pose proof (route_Routed_quiet _ _ _ Hroute w) as Hquiet. unfold trace in *.
      destruct (decrypt w) as [[[r|p] w1] t1]; simpl in Hquiet;
        apply quiet_counts in Hquiet as (_ & Hm & _ & _); [|simpl; lia].
      destruct r as [decrypted|err]; simpl.
      * destruct (proto_Unmarshal decrypted) as [msg|err].
        -- rewrite bind_at.
           destruct (handleDecryptedMessage_run info msg w1)
             as (w2 & t2 & evt & -> & _ & _ & Ht2).
           specialize (IH true w2).
           destruct (decryptLoop info node rest true w2) as [[r w3] t3].
           assert (count is_message_event t2 = 0) as Hm2.
           { apply count_zero. eapply Forall_impl; [exact Ht2|]. by intros [[]| | |]. }
           simpl in *. rewrite !count_app, !count_cons, !count_nil. simpl. lia.
        -- rewrite Log_Warnf_bind_at. specialize (IH handled w1).
           destruct (decryptLoop info node rest handled w1) as [[r w2] t2].
           simpl in *. rewrite !count_app, !count_cons. simpl. lia.
      * rewrite !count_app, !count_cons, !count_nil. simpl. lia.
Qed.

End DispatcherActions.

(** X12. Every run of the dispatcher starts the acknowledgement of the
    node first, and starts none after it; this holds also for a run that
    panics. *)
Theorem decryptMessages_acknowledges_first `{!Collaborators}
    (info : MessageInfo) (node : Node) (w : World) :
  ∃ t, trace (decryptMessages info node w) = Go (sendAck node) :: t ∧
       count is_ack t = 0.
Proof.
  destruct (decryptMessages_tail info node w) as (t & Ht & Hall).
  exists t. split; [done|]. apply count_zero.
  eapply Forall_impl; [exact Hall|].
  intros a [Ha | [-> | [-> | ->]]]; [|done..].
  by destruct a as [[]| | |].
Qed.

(** X13. In every run the dispatcher dispatches at most one
    undecryptable event, starts as many retry receipts as it dispatches
    undecryptable events, and never starts both a retry receipt and a
    message receipt.  A run that returns after dispatching a message
    event has started exactly one of the two. *)
Theorem decryptMessages_signals `{!Collaborators}
    (info : MessageInfo) (node : Node) (w : World) :
  let t := trace (decryptMessages info node w) in
  count is_undecryptable t ≤ 1 ∧
  count is_retry_receipt t = count is_undecryptable t ∧
  count is_retry_receipt t + count is_message_receipt t ≤ 1 ∧
  (outcome (decryptMessages info node w) = Return tt →
   0 < count is_message_event t →
   count is_retry_receipt t + count is_message_receipt t = 1).
Proof.
  unfold decryptMessages. rewrite go_bind_at.
  destruct (bool_decide _).
  - unfold trace, outcome. simpl. by repeat split.
  - rewrite Log_Debugf_bind_at, bind_at.
    pose proof (decryptLoop_observed info node (GetChildren node) false w) as Hobs.
    destruct (decryptLoop info node (GetChildren node) false w) as [[[exit|p] w1] t1];
      [destruct exit as [|[|]]|]; unfold outcome, trace; simpl;
      destruct Hobs as (Hs & Hobs);
      rewrite ?app_nil_r, ?count_cons, ?count_app, ?count_cons, ?count_nil; simpl.
    + destruct Hobs as (Hu & Hr). lia.
    + destruct Hobs as (Hu & Hr & _). lia.
    + destruct Hobs as (Hu & Hr & [_ Hh]). repeat split; try lia.
      all: intros _ Hpos; assert (false = true); [|done]; apply Hh; right; lia.
    + destruct Hobs as (Hu & Hr). repeat split; try lia. all: done.
Qed.

Lemma decryptMessages_signals_witness :
  let t := trace (@decryptMessages Toy.collaborators Toy.info
                    (Toy.message [Toy.enc "msg" [x68; x01]]) (Toy.mkWorld false 7)) in
  count is_retry_receipt t + count is_message_receipt t = 1.
Proof.
  intros t.
  destruct (@decryptMessages_signals Toy.collaborators Toy.info
              (Toy.message [Toy.enc "msg" [x68; x01]]) (Toy.mkWorld false 7))
    as (_ & _ & _ & Hone).
  apply Hone; [reflexivity|]. vm_compute. lia.
Defined.

(** X14. The loop does not see the children that are not tagged "enc"
    or have no [type] attribute that is a string: it runs as it does on
    the list without them. *)
Theorem decryptLoop_ignores_other_children `{!Collaborators}
    (info : MessageInfo) (node : Node) (children : list Node) (handled : bool)
    (w : World) :
  decryptLoop info node children handled w =
  decryptLoop info node
    (filter (λ child, Tag child = "enc" ∧ is_Some (attr_string child "type")) children)
    handled w.
Proof.
  revert handled w. induction children as [|child rest IH]; intros handled w; [done|].
  destruct (decide (Tag child = "enc" ∧ is_Some (attr_string child "type")))
    as [[Htag [encType Htype]]|Hnot].
  - rewrite filter_cons_True by eauto. rewrite !decryptLoop_cons.
    destruct (route info child) as [| |decrypt] eqn:Hroute.
    + unfold route in Hroute. rewrite Htype in Hroute.
      rewrite bool_decide_eq_true_2 in Hroute by done. simpl in Hroute.
      destruct (_ || _); [done|]. by destruct (_ && _).
    + rewrite !Log_Warnf_bind_at. by rewrite IH.
    + apply bind_ext_at. intros [decrypted|err] w1; simpl; [|done].
      destruct (proto_Unmarshal decrypted); apply bind_ext_at; intros _ w2; apply IH.
  - rewrite filter_cons_False by done. rewrite decryptLoop_cons.
    assert (route info child = Skipped) as ->; [|apply IH].
    unfold route. destruct (bool_decide_reflect (Tag child = "enc")); [|done]. simpl.
    destruct (attr_string child "type") eqn:Htype; [|done].
    destruct Hnot. eauto.
Qed.

(** X15. For a message that is not from a group the dispatcher never
    calls the group cipher and never processes a sender key
    distribution, whatever the children and the decrypted messages
    hold. *)
Theorem decryptMessages_no_sender_keys_outside_group `{!Collaborators}
    (info : MessageInfo) (node : Node) (w : World) :
  IsGroup info = false →
  let t := trace (decryptMessages info node w) in
  count is_group_decrypt t = 0 ∧ count is_process_call t = 0.
Proof.
  intros Hgroup t. subst t.
  destruct (decryptMessages_tail info node w) as (t & -> & Hall).
  rewrite !count_cons. simpl.
  split; apply count_zero; (eapply Forall_impl; [exact Hall|]).
  all: intros a [Ha | [-> | [-> | ->]]]; [|done..].
  all: destruct a as [|[]| |[]]; simpl in *; try done; congruence.
Qed.

(** A sender key message sent outside a group is logged as unhandled. *)
Lemma decryptMessages_no_sender_keys_outside_group_witness :
  let t := trace (@decryptMessages Toy.collaborators Toy.info
                    (Toy.message [Toy.enc "skmsg" [x68; x01]]) (Toy.mkWorld false 7)) in
  count is_group_decrypt t = 0 ∧ count is_process_call t = 0.
Proof.
  exact (@decryptMessages_no_sender_keys_outside_group Toy.collaborators Toy.info
           (Toy.message [Toy.enc "skmsg" [x68; x01]]) (Toy.mkWorld false 7) eq_refl).
Defined.



(** X17. The dispatcher dispatches at most as many message events as
    the node has children tagged "enc". *)
Theorem decryptMessages_message_events_bound `{!Collaborators}
    (info : MessageInfo) (node : Node) (w : World) :
  count is_message_event (trace (decryptMessages info node w)) ≤
  length (GetChildrenByTag node "enc").
Proof.
  unfold decryptMessages. rewrite go_bind_at.
  destruct (bool_decide _).
  - unfold trace. simpl. vm_compute. lia.
  - rewrite Log_Debugf_bind_at, bind_at.
    pose proof (decryptLoop_message_events info node (GetChildren node) false w) as Hloop.
    unfold GetChildrenByTag, trace in *.
    destruct (decryptLoop info node (GetChildren node) false w) as [[[exit|p] w1] t1];
      [destruct exit as [|[|]]|]; simpl in *;
      rewrite ?app_nil_r, ?count_cons, ?count_app, ?count_cons, ?count_nil; simpl; lia.
Qed.

(** X18. When the engine decrypts the first child, a standard message,
    to the empty plaintext, the dispatcher panics in [unpadMessage]
    after the acknowledgement and the decryption: it starts no retry
    receipt and dispatches no event, and the children after it are not
    looked at. *)
Theorem decryptMessages_empty_plaintext_panics `{!Collaborators}
    (info : MessageInfo) (node child : Node) (rest : list Node)
    (msg : SignalMessage) (w w1 : World) :
  GetChildren node = child :: rest →
  Tag child = "enc" →
  attr_string child "type" = Some "msg" →
  NewSignalMessageFromBytes (content_bytes child) = Ok msg →
  Cipher_Decrypt (JID_SignalAddress (Sender info)) msg w = (Ok [], w1) →
  decryptMessages info node w =
    (Panic (IndexOutOfRange (-1) 0), w1,
     [Go (sendAck node);
      Log LevelDebug "Decrypting %d messages from %s";
      Call (CallDecrypt (JID_SignalAddress (Sender info)) msg)]).
Proof.
  intros Hchildren Htag Htype Hparse Hdecrypt.
  assert (route info child = Routed (decryptDM child (Sender info) false)) as Hroute.
  { unfold route. rewrite Htype, bool_decide_eq_true_2 by done. done. }
  unfold decryptMessages. rewrite go_bind_at, bool_decide_eq_false_2.
  - rewrite Log_Debugf_bind_at, bind_at, Hchildren, decryptLoop_cons, Hroute.
    rewrite bind_at, decryptDM_standard, Hparse, Hdecrypt. done.
  - rewrite all_unavailable_iff, Hchildren, Forall_cons.
    intros [Hun _]. congruence.
Qed.

Lemma decryptMessages_empty_plaintext_panics_witness :
  let node := Toy.message [Toy.enc "msg" []; Toy.enc "msg" [x68; x01]] in
  let w := Toy.mkWorld false 7 in
  @decryptMessages Toy.collaborators Toy.info node w =
    (Panic (IndexOutOfRange (-1) 0), w,
     [Go (sendAck node);
      Log LevelDebug "Decrypting %d messages from %s";
      Call (CallDecrypt ("123" : @SignalAddress Toy.collaborators)
                        ([] : @SignalMessage Toy.collaborators))]).
Proof.
  intros node w.
  exact (@decryptMessages_empty_plaintext_panics Toy.collaborators Toy.info node
           (Toy.enc "msg" []) [Toy.enc "msg" [x68; x01]] [] w w
           eq_refl eq_refl eq_refl eq_refl eq_refl).
Defined.

(** ** Decryptors, further *)

(** X19. The group decryptor has no retry: when the group cipher
    fails, with an untrusted identity or with anything else, the world is
    the one the single call left, nothing is deleted and no event is
    dispatched, and the error returned wraps the cipher's, so that
    [errors.Is] finds in it what it finds in the cipher's error.  When
    the message does not parse the cipher is not called at all. *)
Theorem decryptGroupMsg_no_retry `{!Collaborators}
    (child : Node) (from chat : JID) (w : World) :
  let name := NewSenderKeyName (JID_String chat) (JID_SignalAddress from) in
  (∀ err, NewSenderKeyMessageFromBytes (content_bytes child) = Err err →
     decryptGroupMsg child from chat w =
       (Return (Err (Wrapf "failed to parse group message: %w" err)), w, [])) ∧
  (∀ msg e w1,
     NewSenderKeyMessageFromBytes (content_bytes child) = Ok msg →
     GroupCipher_Decrypt name msg w = (Err e, w1) →
     decryptGroupMsg child from chat w =
       (Return (Err (Wrapf "failed to decrypt group message: %w" e)), w1,
        [Call (CallGroupDecrypt name msg)]) ∧
     ∀ target, chain_has (Wrapf "failed to decrypt group message: %w" e) target =
               chain_has e target) ∧
  (∀ r w' t,
     decryptGroupMsg child from chat w = (r, w', t) →
     count is_decrypt_call t ≤ 1 ∧ count is_delete_call t = 0 ∧
     count is_identity_change t = 0).
Proof.
  intros name. unfold decryptGroupMsg. fold name.
  destruct (NewSenderKeyMessageFromBytes _) as [msg|err].
  - split; [by intros ? [=]|]. split.
    + intros msg0 e w1 [= <-] Hfail. rewrite bind_at.
      unfold GroupDecrypt, invoke. rewrite Hfail. by split.
    + intros r w' t. rewrite bind_at. unfold GroupDecrypt, invoke.
      destruct (GroupCipher_Decrypt name msg w) as [[plaintext|e] w1]; simpl.
      * unfold lift. destruct (unpadMessage plaintext); intros [= <- <- <-];
          rewrite !count_cons, !count_nil; simpl; lia.
      * intros [= <- <- <-]. rewrite !count_cons, !count_nil. simpl. lia.
  - split; [by intros ? [= <-]|]. split; [by intros ? ? ? [=]|].
    intros r w' t [= <- <- <-]. rewrite !count_nil. lia.
Qed.

Lemma decryptGroupMsg_no_retry_witness :
  @decryptGroupMsg Toy.collaborators (Toy.enc "skmsg" [x00]) Toy.peer Toy.peer
    (Toy.mkWorld true 7) =
  (Return (Err (Wrapf "failed to decrypt group message: %w" (Errorf "bad mac"))),
   Toy.mkWorld true 7,
   [Call (CallGroupDecrypt
            (("123@s.whatsapp.net", "123") : @SenderKeyName Toy.collaborators)
            ([x00] : @SenderKeyMessage Toy.collaborators))]).
Proof.
  destruct (@decryptGroupMsg_no_retry Toy.collaborators (Toy.enc "skmsg" [x00])
              Toy.peer Toy.peer (Toy.mkWorld true 7)) as (_ & Hfail & _).
  exact (proj1 (Hfail [x00] (Errorf "bad mac") (Toy.mkWorld true 7) eq_refl eq_refl)).
Defined.

(** X20. A pre-key message without a trust failure: when it does not
    parse, the engine is not called and the world is untouched; when the
    first decryption succeeds, that is the only call, nothing is deleted,
    no identity change is dispatched, and the result is the unpadded
    plaintext. *)
Theorem decryptDM_prekey_first_attempt `{!Collaborators}
    (child : Node) (from : JID) (w : World) :
  let address := JID_SignalAddress from in
  (∀ err, NewPreKeySignalMessageFromBytes (content_bytes child) = Err err →
     decryptDM child from true w =
       (Return (Err (Wrapf "failed to parse prekey message: %w" err)), w, [])) ∧
  (∀ preKeyMsg plaintext w1,
     NewPreKeySignalMessageFromBytes (content_bytes child) = Ok preKeyMsg →
     Cipher_DecryptMessageReturnKey address preKeyMsg w = (Ok plaintext, w1) →
     decryptDM child from true w =
       (unpadMessage plaintext, w1,
        [Call (CallDecryptMessageReturnKey address preKeyMsg)])).
Proof.
  intros address. unfold decryptDM. fold address.
  destruct (NewPreKeySignalMessageFromBytes _) as [preKeyMsg|err].
  - split; [done|]. intros ? plaintext w1 [= <-] Hfirst.
    rewrite bind_at. unfold DecryptMessageReturnKey at 1. unfold invoke.
    rewrite Hfirst. simpl. unfold lift. by destruct (unpadMessage plaintext).
  - split; [by intros ? [= <-]|done].
Qed.

Lemma decryptDM_prekey_first_attempt_witness :
  @decryptDM Toy.collaborators (Toy.enc "pkmsg" [x68; x01]) Toy.peer true
    (Toy.mkWorld false 7) =
  (Return (Ok [x68]), Toy.mkWorld false 7,
   [Call (CallDecryptMessageReturnKey ("123" : @SignalAddress Toy.collaborators)
                                      ([x68; x01] : @PreKeySignalMessage Toy.collaborators))]).
Proof.
  destruct (@decryptDM_prekey_first_attempt Toy.collaborators
              (Toy.enc "pkmsg" [x68; x01]) Toy.peer (Toy.mkWorld false 7)) as (_ & Hfirst).
  exact (Hfirst [x68; x01] [x68; x01] (Toy.mkWorld false 7) eq_refl eq_refl).
Defined.

(** ** Unwrapper of decrypted messages, further *)

Section UnwrapperStages.

Context `{!Collaborators}.

(** [handleDecryptedMessage] is its three stages in order. *)
Lemma handleDecryptedMessage_stages info msg w :
  handleDecryptedMessage info msg w =
  (sender_key_stage info (device_unwrapped msg);;
   protocol_stage info (device_unwrapped msg);;
   dispatchEvent (EvMessage (unwrapped_event info msg))) w.
Proof.
  unfold handleDecryptedMessage, unwrapped_event, device_unwrapped,
    sender_key_stage, protocol_stage.
  destruct (waProto.GetMessage_DeviceSent _) as [inner|];
    [set (m1 := inner)|set (m1 := msg)]; clearbody m1.
  all: cbv beta iota zeta; simpl default.
  all: destruct (waProto.GetMessage_FutureProof (waProto.GetEphemeralMessage m1)) as [m2|];
    simpl default.
  all: match goal with
       | |- context [waProto.GetViewOnceMessage ?m] =>
           destruct (waProto.GetMessage_FutureProof (waProto.GetViewOnceMessage m))
       end.
  all: reflexivity.
Qed.

(** The run of the first two stages. *)
Lemma sender_key_stage_run info m1 w :
  sender_key_stage info m1 w =
  match waProto.GetSenderKeyDistributionMessage m1 with
  | Some skdm =>
      if IsGroup info then
        let name := NewSenderKeyName (JID_String (Chat info))
                                     (JID_SignalAddress (Sender info)) in
        match NewSenderKeyDistributionMessageFromBytes
                (waProto.AxolotlSenderKeyDistributionMessage skdm) with
        | Ok sdkMsg =>
            (Return tt, GroupSessionBuilder_Process name sdkMsg w,
             [Call (CallProcess name sdkMsg);
              Log LevelDebug "Processed sender key distribution message from %s in %s"])
        | Err _ =>
            (Return tt, w,
             [Log LevelError
                "Failed to parse sender key distribution message from %s for %s: %v"])
        end
      else
        (Return tt, w,
         [Log LevelWarn "Got sender key distribution message in non-group chat from"])
  | None => (Return tt, w, [])
  end.
Proof.
  unfold sender_key_stage.
  destruct (waProto.GetSenderKeyDistributionMessage m1) as [skdm|]; [|done].
  destruct (IsGroup info); simpl; [|done].
  unfold handleSenderKeyDistributionMessage.
  by destruct (NewSenderKeyDistributionMessageFromBytes _).
Qed.

Lemma protocol_stage_run info m1 w :
  protocol_stage info m1 w =
  (Return tt, w,
   if waProto.GetProtocolMessage m1 is Some _
   then [Go (handleProtocolMessage info m1)] else []).
Proof. unfold protocol_stage. by destruct (waProto.GetProtocolMessage m1). Qed.

(** The run of [handleDecryptedMessage] from the runs of its stages. *)
Lemma handleDecryptedMessage_from_stages info msg w w1 t1 :
  sender_key_stage info (device_unwrapped msg) w = (Return tt, w1, t1) →
  handleDecryptedMessage info msg w =
  (Return tt, w1,
   t1 ++ (if waProto.GetProtocolMessage (device_unwrapped msg) is Some _
          then [Go (handleProtocolMessage info (device_unwrapped msg))] else []) ++
   [DispatchEvent (EvMessage (unwrapped_event info msg))]).
Proof.
  intros Hstage. rewrite handleDecryptedMessage_stages, bind_at, Hstage.
  rewrite bind_at, protocol_stage_run. done.
Qed.

Lemma sender_key_stage_returns info m1 w :
  ∃ w1 t1, sender_key_stage info m1 w = (Return tt, w1, t1) ∧
    Forall (λ a, match a with Log _ _ | Call (CallProcess _ _) => True | _ => False end) t1.
Proof.
  rewrite sender_key_stage_run.
  destruct (waProto.GetSenderKeyDistributionMessage m1); [|by eexists _, _].
  destruct (IsGroup info).
  - destruct (NewSenderKeyDistributionMessageFromBytes _);
      eexists _, _; (split; [reflexivity|]); by repeat constructor.
  - eexists _, _; (split; [reflexivity|]); by repeat constructor.
Qed.

End UnwrapperStages.

(** X21. [handleDecryptedMessage] returns in every world, and the last
    thing it does is to dispatch its one message event.  The event holds
    the message as it was decoded in [RawMessage], some message in
    [Message], and the info it was given, in which at most the
    device-sent meta differs, and that only for a device-sent wrapper. *)
Theorem handleDecryptedMessage_one_event `{!Collaborators}
    (info : MessageInfo) (msg : waProto.Message) (w : World) :
  ∃ w1 t evt,
    handleDecryptedMessage info msg w =
      (Return tt, w1, t ++ [DispatchEvent (EvMessage evt)]) ∧
    count is_message_event t = 0 ∧
    count is_undecryptable t = 0 ∧
    RawMessage evt = msg ∧
    is_Some (Message evt) ∧
    Source (Info evt) = Source info ∧
    ID (Info evt) = ID info ∧
    PushName (Info evt) = PushName info ∧
    Timestamp (Info evt) = Timestamp info ∧
    Category (Info evt) = Category info ∧
    (DeviceSentMeta (Info evt) = DeviceSentMeta info ∨
     is_Some (waProto.GetMessage_DeviceSent (waProto.GetDeviceSentMessage msg))).
Proof.
  destruct (sender_key_stage_returns info (device_unwrapped msg) w)
    as (w1 & t1 & Hstage & Ht1).
  rewrite (handleDecryptedMessage_from_stages info msg w w1 t1 Hstage).
  eexists w1, _, (unwrapped_event info msg).
  split; [by rewrite app_assoc|].
  assert (count is_message_event t1 = 0 ∧ count is_undecryptable t1 = 0) as [Hm Hu].
  { split; apply count_zero; (eapply Forall_impl; [exact Ht1|]); by intros [|[]| |[]]. }
  rewrite !count_app, Hm, Hu.
  split; [by destruct (waProto.GetProtocolMessage _)|].
  split; [by destruct (waProto.GetProtocolMessage _)|].
  unfold unwrapped_event. simpl.
  destruct (waProto.GetMessage_DeviceSent _); simpl; repeat split; eauto.
Qed.

(** X22. A sender key distribution in the message, after the
    device-sent wrapper has been removed: in a group, when the payload
    parses, it is processed once, first of all, under the name of the
    chat and the sender, and the world is the one [Process] leaves; when
    it does not parse, or outside a group, nothing is processed and the
    world is untouched. *)
Theorem handleDecryptedMessage_sender_key `{!Collaborators}
    (info : MessageInfo) (msg : waProto.Message)
    (skdm : waProto.SenderKeyDistributionMessage) (w : World) :
  waProto.GetSenderKeyDistributionMessage (device_unwrapped msg) = Some skdm →
  let name := NewSenderKeyName (JID_String (Chat info))
                               (JID_SignalAddress (Sender info)) in
  let run := handleDecryptedMessage info msg w in
  match NewSenderKeyDistributionMessageFromBytes
          (waProto.AxolotlSenderKeyDistributionMessage skdm) with
  | Ok sdkMsg =>
      if IsGroup info
      then final run = GroupSessionBuilder_Process name sdkMsg w ∧
           head (trace run) = Some (Call (CallProcess name sdkMsg)) ∧
           count is_process_call (trace run) = 1
      else final run = w ∧ count is_process_call (trace run) = 0
  | Err _ => final run = w ∧ count is_process_call (trace run) = 0
  end.
Proof.
  intros Hskdm name run. subst run.
  pose proof (sender_key_stage_run info (device_unwrapped msg) w) as Hstage.
  rewrite Hskdm in Hstage. fold name in Hstage.
  destruct (NewSenderKeyDistributionMessageFromBytes _) as [sdkMsg|err];
    destruct (IsGroup info);
    rewrite (handleDecryptedMessage_from_stages _ _ _ _ _ Hstage);
    unfold final, trace; simpl;
    destruct (waProto.GetProtocolMessage _); by vm_compute.
Qed.

(** A distribution sent outside a group. *)
Lemma handleDecryptedMessage_sender_key_witness :
  let skdm := waProto.mkSenderKeyDistributionMessage (Some "g") [x01] in
  let msg := waProto.mkMessage None (Some skdm) None None None None in
  let run := @handleDecryptedMessage Toy.collaborators Toy.info msg (Toy.mkWorld false 7) in
  final run = Toy.mkWorld false 7 ∧ count is_process_call (trace run) = 0.
Proof.
  intros skdm msg run.
  exact (@handleDecryptedMessage_sender_key Toy.collaborators Toy.info msg skdm
           (Toy.mkWorld false 7) eq_refl).
Defined.

(** X23. A message that is only an ephemeral wrapper: the event is
    ephemeral; a view-once wrapper directly inside is removed as well.
    A message that is only a view-once wrapper: the event is view-once
    and holds what the wrapper holds as it is, an ephemeral wrapper
    inside is not removed.  In both cases the event is all that happens:
    a sender key distribution or a protocol message inside the wrapper is
    not handled. *)
Theorem handleDecryptedMessage_wrappers `{!Collaborators}
    (info : MessageInfo) (body : waProto.Message) (w : World) :
  handleDecryptedMessage info (ephemeral_wrap body) w =
    (Return tt, w,
     [DispatchEvent (EvMessage
        {| Info := info;
           Message := Some (default body (waProto.GetMessage_FutureProof
                                            (waProto.GetViewOnceMessage body)));
           IsEphemeral := true;
           IsViewOnce := bool_decide (is_Some (waProto.GetMessage_FutureProof
                                                 (waProto.GetViewOnceMessage body)));
           RawMessage := ephemeral_wrap body |})]) ∧
  handleDecryptedMessage info (view_once_wrap body) w =
    (Return tt, w,
     [DispatchEvent (EvMessage
        {| Info := info; Message := Some body; IsEphemeral := false;
           IsViewOnce := true; RawMessage := view_once_wrap body |})]).
Proof.
  split.
  - rewrite (handleDecryptedMessage_from_stages info (ephemeral_wrap body) w w []) by done.
    unfold unwrapped_event. simpl.
    by destruct (waProto.GetMessage_FutureProof (waProto.GetViewOnceMessage body)).
  - by rewrite (handleDecryptedMessage_from_stages info (view_once_wrap body) w w []).
Qed.

(** X24. The protocol message task is started exactly when the message,
    after the device-sent wrapper has been removed, holds a protocol
    message, and then once; it is given that message and the info as
    the handler got it. *)
Theorem handleDecryptedMessage_protocol_task `{!Collaborators}
    (info : MessageInfo) (msg : waProto.Message) (w : World) :
  let t := trace (handleDecryptedMessage info msg w) in
  count is_protocol_task t =
    (if waProto.GetProtocolMessage (device_unwrapped msg) is Some _ then 1 else 0) ∧
  ∀ i m, Go (handleProtocolMessage i m) ∈ t → i = info ∧ m = device_unwrapped msg.
Proof.
  intros t. subst t.
  destruct (sender_key_stage_returns info (device_unwrapped msg) w)
    as (w1 & t1 & Hstage & Ht1).
  rewrite (handleDecryptedMessage_from_stages info msg w w1 t1 Hstage).
  unfold trace. simpl.
  assert (count is_protocol_task t1 = 0) as Hp.
  { apply count_zero. eapply Forall_impl; [exact Ht1|]. by intros [|[]| |[]]. }
  split.
  - rewrite !count_app, Hp. by destruct (waProto.GetProtocolMessage _).
  - intros i m. rewrite !elem_of_app. intros [Hin|[Hin|Hin]].
    + rewrite Forall_forall in Ht1. by apply Ht1 in Hin.
    + destruct (waProto.GetProtocolMessage _); [|by apply elem_of_nil in Hin].
      apply list_elem_of_singleton in Hin. by injection Hin as -> ->.
    + apply list_elem_of_singleton in Hin. discriminate Hin.
Qed.

(** ** Protocol messages *)

Section ControlRuns.

Context `{!Collaborators} `{!Services}.

Lemma length_zero_iff (s : string) : String.length s = 0 ↔ s = "".
Proof. by destruct s. Qed.

(** The run of the receipt sender. *)
Lemma sendProtocolMessageReceipt_run (cli : Client) (id msgType : string) (w : World) :
  sendProtocolMessageReceipt cli id msgType w =
  match Store_ID cli with
  | Some me =>
      if bool_decide (id = "") then (Return tt, w, [])
      else
        let node := receipt_node (User me) id msgType in
        let '(err, w1) := Client_sendNode node w in
        (Return tt, w1,
         Service (CallSendNode node) ::
         if err is Some _
         then [Core (Log LevelWarn
                 "Failed to send acknowledgement for protocol message %s: %v")]
         else [])
  | None => (Return tt, w, [])
  end.
Proof.
  unfold sendProtocolMessageReceipt.
  destruct (Store_ID cli) as [me|] eqn:Hme.
  - destruct (bool_decide_reflect (id = "")) as [->|Hid]; [done|].
    rewrite bool_decide_eq_false_2 by (by rewrite length_zero_iff). simpl.
    rewrite E_bind_at. unfold pure_exec. rewrite E_bind_at.
    unfold sendNode, service, receipt_node.
    by destruct (Client_sendNode _ w) as [[err|] w1].
  - by rewrite orb_true_r.
Qed.

Lemma sendProtocolMessageReceipt_quiet (cli : Client) (id msgType : string) (w : World) :
  ∃ w1 t, sendProtocolMessageReceipt cli id msgType w = (Return tt, w1, t) ∧
    tally is_download t = 0 ∧ tally is_put t = 0 ∧ tally is_fetch t = 0 ∧
    tally is_history_event t = 0 ∧ tally is_send t ≤ 1.
Proof.
  rewrite sendProtocolMessageReceipt_run.
  assert (∀ t : list effect,
            Forall (λ e, match e with
                         | Core (Log _ _) => True
                         | _ => False
                         end) t →
            tally is_download t = 0 ∧ tally is_put t = 0 ∧ tally is_fetch t = 0 ∧
            tally is_history_event t = 0 ∧ tally is_send t = 0) as Hlogs.
  { induction 1 as [|e t He _ IH]; [done|].
    rewrite !tally_cons. by destruct e as [[]| | | |]. }
  destruct (Store_ID cli) as [me|].
  - destruct (bool_decide (id = "")).
    + eexists _, _. split; [reflexivity|].
      destruct (Hlogs []) as (? & ? & ? & ? & ?); [constructor|]. repeat split; lia.
    + cbv zeta. destruct (Client_sendNode _ w) as [err w1].
      eexists _, _. split; [reflexivity|]. rewrite !tally_cons. simpl.
      destruct (Hlogs (if err is Some _
                       then [Core (Log LevelWarn
                               "Failed to send acknowledgement for protocol message %s: %v")]
                       else [])) as (? & ? & ? & ? & ?).
      { destruct err; by repeat constructor. }
      repeat split; lia.
  - eexists _, _. split; [reflexivity|].
    destruct (Hlogs []) as (? & ? & ? & ? & ?); [constructor|]. repeat split; lia.
Qed.

(** The stores and the fetches of [handleAppStateSyncKeyShare]. *)
Lemma storeKeys_run (keys : list (proto_AppStateSyncKey KeyFingerprintMessage)) (w : World) :
  ∃ w1 t, storeKeys keys w = (Return tt, w1, t) ∧
    fetches t = [] ∧
    tally is_put t =
      length (filter (λ key, is_Some (match proto_Marshal (KeyFingerprint key) with
                                      | Ok b => Some b
                                      | Err _ => None
                                      end)) keys).
Proof.
  revert w. induction keys as [|key rest IH]; intros w; [by eexists _, _|].
  simpl storeKeys. unfold E_Errorf, E_Debugf.
  destruct (proto_Marshal (KeyFingerprint key)) as [fp|err] eqn:Hfp.
  - rewrite filter_cons_True by (rewrite Hfp; eauto).
    rewrite E_bind_at. unfold PutAppStateSyncKey, service.
    destruct (AppStateKeys_PutAppStateSyncKey _ _ w) as [[e|] w1];
      rewrite effect_bind_at;
      destruct (IH w1) as (w2 & t & -> & Hf & Hp);
      eexists _, _; (split; [reflexivity|]);
      (split; [exact Hf|]);
      simpl; rewrite !tally_cons; simpl; by rewrite Hp.
  - rewrite filter_cons_False by (rewrite Hfp; by intros [? [=]]).
    rewrite effect_bind_at. destruct (IH w) as (w2 & t & -> & Hf & Hp).
    eexists _, _. split; [reflexivity|]. split; [exact Hf|].
    rewrite tally_cons. simpl. by rewrite Hp.
Qed.

Lemma fetchAll_run (names : list string) (w : World) :
  ∃ w1 t, fetchAll names w = (Return tt, w1, t) ∧
    fetches t = (λ name, (name, false, true)) <$> names ∧
    tally is_put t = 0.
Proof.
  revert w. induction names as [|name rest IH]; intros w; [by eexists _, _|].
  simpl fetchAll. unfold E_Errorf. rewrite E_bind_at. unfold FetchAppState, service.
  destruct (Client_FetchAppState name false true w) as [[e|] w1];
    rewrite E_bind_at; simpl;
    destruct (IH w1) as (w2 & t & -> & Hf & Hp);
    eexists _, _; (split; [reflexivity|]);
    (split; [simpl; by rewrite Hf|]);
    simpl; rewrite !tally_cons; simpl; by rewrite Hp.
Qed.

Lemma fetches_app (t1 t2 : list effect) : fetches (t1 ++ t2) = fetches t1 ++ fetches t2.
Proof. apply omap_app. Qed.

Lemma fetches_nil_tally (t : list effect) : fetches t = [] → tally is_fetch t = 0.
Proof.
  induction t as [|e t IH]; [done|]. rewrite tally_cons.
  destruct e as [| | | |[]]; simpl; try done; intros Hf; by rewrite IH.
Qed.

End ControlRuns.

(** X25. The receipt sender never panics.  It sends nothing when the id
    is empty or the client is not logged in; otherwise it sends one
    receipt node with the id, the type and the local user on the legacy
    server, and a failure to send is logged and nothing more. *)
Theorem sendProtocolMessageReceipt_outcome `{!Collaborators} `{!Services}
    (cli : Client) (id msgType : string) (w : World) :
  (id = "" ∨ Store_ID cli = None →
   sendProtocolMessageReceipt cli id msgType w = (Return tt, w, [])) ∧
  (∀ me, id ≠ "" → Store_ID cli = Some me →
   let node := {| Tag := "receipt";
                  Attrs := {[ "id" := AttrString id;
                              "type" := AttrString msgType;
                              "to" := AttrJID (NewJID (User me) LegacyUserServer) ]};
                  Content := ContentNil |} in
   sendProtocolMessageReceipt cli id msgType w =
     (Return tt, (Client_sendNode node w).2,
      Service (CallSendNode node) ::
      if (Client_sendNode node w).1 is Some _
      then [Core (Log LevelWarn
              "Failed to send acknowledgement for protocol message %s: %v")]
      else [])).
Proof.
  rewrite sendProtocolMessageReceipt_run. split.
  - intros [-> | ->]; [|done]. by destruct (Store_ID cli).
  - intros me Hid ->. rewrite bool_decide_eq_false_2 by done.
    unfold receipt_node. simpl. by destruct (Client_sendNode _ w).
Qed.

Lemma sendProtocolMessageReceipt_outcome_witness :
  let node := {| Tag := "receipt";
                 Attrs := {[ "id" := AttrString "3EB0";
                             "type" := AttrString "peer_msg";
                             "to" := AttrJID {| User := "456"; Device := 0;
                                                Server := "c.us" |} ]};
                 Content := ContentNil |} in
  @sendProtocolMessageReceipt Toy.collaborators ToyServices.services ToyServices.cli
    "3EB0" "peer_msg" (Toy.mkWorld false 7) =
  (Return tt, Toy.mkWorld false 7, [Service (CallSendNode node)]).
Proof.
  intros node.
  destruct (@sendProtocolMessageReceipt_outcome Toy.collaborators ToyServices.services
              ToyServices.cli "3EB0" "peer_msg" (Toy.mkWorld false 7)) as [_ Hsend].
  exact (Hsend ToyServices.me ltac:(discriminate) eq_refl).
Defined.

(** X26. A protocol message that is not from me: nothing is downloaded,
    no app state key is stored, no app state is fetched and no history
    sync event is dispatched, whatever the message holds.  All that can
    happen is the receipt for a peer message. *)
Theorem handleProtocolMessage_not_from_me `{!Collaborators} `{!Services}
    (cli : Client) (info : MessageInfo) (msg : waProto.Message) (w : World) :
  IsFromMe info = false →
  handleProtocolMessage_body cli info msg w =
    (if bool_decide (Category info = "peer")
     then sendProtocolMessageReceipt cli (ID info) "peer_msg"
     else mret tt) w ∧
  let t := (handleProtocolMessage_body cli info msg w).2 in
  tally is_download t = 0 ∧ tally is_put t = 0 ∧ tally is_fetch t = 0 ∧
  tally is_history_event t = 0 ∧ tally is_send t ≤ 1.
Proof.
  intros Hother.
  assert (handleProtocolMessage_body cli info msg w =
          (if bool_decide (Category info = "peer")
           then sendProtocolMessageReceipt cli (ID info) "peer_msg"
           else mret tt) w) as Hrun.
  { unfold handleProtocolMessage_body. rewrite Hother.
    destruct (_ ≫= waProto.HistorySyncNotification);
      destruct (_ ≫= waProto.AppStateSyncKeyShare);
      by rewrite !E_ret_bind_at. }
  split; [done|]. rewrite Hrun.
  destruct (bool_decide (Category info = "peer")).
  - destruct (sendProtocolMessageReceipt_quiet cli (ID info) "peer_msg" w)
      as (w1 & t & -> & Hquiet). exact Hquiet.
  - simpl. rewrite !tally_nil. repeat split; lia.
Qed.

(** A history sync notification sent by somebody else is not followed. *)
Lemma handleProtocolMessage_not_from_me_witness :
  let msg := waProto.mkMessage None None
               (Some (waProto.mkProtocolMessage (Some [x68]) (Some [x69])))
               None None None in
  @handleProtocolMessage_body Toy.collaborators ToyServices.services ToyServices.cli
    Toy.info msg (Toy.mkWorld false 7) = (Return tt, Toy.mkWorld false 7, []).
Proof.
  intros msg.
  exact (proj1 (@handleProtocolMessage_not_from_me Toy.collaborators ToyServices.services
                  ToyServices.cli Toy.info msg (Toy.mkWorld false 7) eq_refl)).
Defined.

(** X27. A history sync notification from me whose download fails: the
    failure is logged, and the receipt of type "hist_sync" is sent all
    the same, right after it. *)
Theorem handleProtocolMessage_receipt_after_failed_download
    `{!Collaborators} `{!Services}
    (cli : Client) (info : MessageInfo) (msg : waProto.Message) (me : JID)
    (notif : bytes) (err : error) (w w1 : World) :
  IsFromMe info = true →
  waProto.GetProtocolMessage msg ≫= waProto.HistorySyncNotification = Some notif →
  Client_Download notif w = (Err err, w1) →
  Store_ID cli = Some me →
  ID info ≠ "" →
  ∃ rest,
    (handleProtocolMessage_body cli info msg w).2 =
      [Service (CallDownload notif);
       Core (Log LevelError "Failed to download history sync data: %v");
       Service (CallSendNode (receipt_node (User me) (ID info) "hist_sync"))] ++ rest.
Proof.
  intros Hme Hnotif Hdownload Hid Hne.
  unfold handleProtocolMessage_body. rewrite Hnotif, Hme.
  rewrite E_bind_at, E_bind_at.
  assert (handleHistorySyncNotification notif w =
          (Return tt, w1,
           [Service (CallDownload notif);
            Core (Log LevelError "Failed to download history sync data: %v")])) as ->.
  { unfold handleHistorySyncNotification. rewrite E_bind_at.
    unfold Download, service. by rewrite Hdownload. }
  rewrite sendProtocolMessageReceipt_run, Hid, bool_decide_eq_false_2 by done.
  cbv zeta. destruct (Client_sendNode _ w1) as [e w2].
  match goal with
  | |- context [E_bind _ _ _ ?k w2] => destruct (E_bind _ _ _ k w2) as [[r w3] t3]
  | |- context [?k w2] => destruct (k w2) as [[r w3] t3]
  end.
  simpl. destruct e; eexists; reflexivity.
Qed.

Lemma handleProtocolMessage_receipt_after_failed_download_witness :
  let msg := waProto.mkMessage None None
               (Some (waProto.mkProtocolMessage (Some [x00]) None)) None None None in
  let info := {| Source := {| Chat := ToyServices.me; Sender := ToyServices.me;
                              IsFromMe := true; IsGroup := false;
                              BroadcastListOwner := JID_zero |};
                 ID := "3EB0"; PushName := ""; Timestamp := 0%Z; Category := "";
                 DeviceSentMeta := None |} in
  ∃ rest,
    (@handleProtocolMessage_body Toy.collaborators ToyServices.services ToyServices.cli
       info msg (Toy.mkWorld false 7)).2 =
      [Service (CallDownload [x00]);
       Core (Log LevelError "Failed to download history sync data: %v");
       Service (CallSendNode
                  (@receipt_node Toy.collaborators ToyServices.services
                     "456" "3EB0" "hist_sync"))] ++ rest.
Proof.
  intros msg info.
  apply (@handleProtocolMessage_receipt_after_failed_download Toy.collaborators
           ToyServices.services ToyServices.cli info msg ToyServices.me [x00]
           (Errorf "bad mac") (Toy.mkWorld false 7) (Toy.mkWorld false 7));
    first [reflexivity | discriminate].
Defined.

(** X28. The history sync handler always returns after exactly one
    download.  When the download, the zlib reader, the read and the
    decoding all succeed it dispatches the history sync event last,
    after starting the push name task exactly for a sync of type push
    name, and logs no error; when one of them fails it logs one error and
    does nothing else. *)
Theorem handleHistorySyncNotification_outcome `{!Collaborators} `{!Services}
    (notif : bytes) (w : World) :
  let decoded :=
    match (Client_Download notif w).1 with
    | Ok data =>
        match zlib_NewReader data with
        | Ok reader =>
            match io_ReadAll reader with
            | Ok rawData =>
                match proto_Unmarshal_HistorySync rawData with
                | Ok historySync => Some historySync
                | Err _ => None
                end
            | Err _ => None
            end
        | Err _ => None
        end
    | Err _ => None
    end in
  ∃ t,
    handleHistorySyncNotification notif w =
      (Return tt, (Client_Download notif w).2, Service (CallDownload notif) :: t) ∧
    tally is_download t = 0 ∧
    match decoded with
    | Some historySync =>
        last t = Some (DispatchHistorySync historySync) ∧
        tally is_history_event t = 1 ∧
        tally is_error_log t = 0 ∧
        tally is_push_name_task t =
          (if bool_decide (GetSyncType historySync = HistorySync_PUSH_NAME)
           then 1 else 0)
    | None =>
        length t = 1 ∧ tally is_error_log t = 1
    end.
Proof.
  unfold handleHistorySyncNotification. rewrite E_bind_at.
  unfold Download, service.
  destruct (Client_Download notif w) as [[data|err] w1]; simpl;
    [|eexists; split; [reflexivity|]; by vm_compute].
  destruct (zlib_NewReader data) as [reader|err];
    [|eexists; split; [reflexivity|]; by vm_compute].
  destruct (io_ReadAll reader) as [rawData|err];
    [|eexists; split; [reflexivity|]; by vm_compute].
  destruct (proto_Unmarshal_HistorySync rawData) as [historySync|err];
    [|eexists; split; [reflexivity|]; by vm_compute].
  destruct (bool_decide (GetSyncType historySync = HistorySync_PUSH_NAME));
    eexists; (split; [reflexivity|]); by vm_compute.
Qed.

(** X29. The app state key handler always returns.  It tries to store
    each key whose fingerprint can be marshalled, once, and a key that
    cannot be stored does not stop the others; after the stores it
    fetches every app state of [AllPatchNames], in order, not as a full
    sync and only if not synced, and a failed fetch does not stop the
    later ones. *)
Theorem handleAppStateSyncKeyShare_outcome `{!Collaborators} `{!Services}
    (keys : bytes) (w : World) :
  ∃ w1 stores fetched,
    handleAppStateSyncKeyShare keys w =
      (Return tt, w1,
       Core (Log LevelDebug "Got %d new app state keys") :: stores ++ fetched) ∧
    tally is_fetch stores = 0 ∧
    tally is_put fetched = 0 ∧
    tally is_put stores =
      length (filter (λ key, is_Some (match proto_Marshal (KeyFingerprint key) with
                                      | Ok b => Some b
                                      | Err _ => None
                                      end)) (GetKeys keys)) ∧
    fetches fetched = (λ name, (name, false, true)) <$> AllPatchNames.
Proof.
  unfold handleAppStateSyncKeyShare, E_Debugf. rewrite effect_bind_at, E_bind_at.
  destruct (storeKeys_run (GetKeys keys) w) as (w1 & stores & -> & Hf & Hp).
  destruct (fetchAll_run AllPatchNames w1) as (w2 & fetched & -> & Hf2 & Hp2).
  exists w2, stores, fetched. split; [done|].
  split; [by apply fetches_nil_tally|]. done.
Qed.
